(** * SynergySphere client (src/src/App.js): a shallow embedding

    The React components of [App.js] are embedded as state machines: the
    values kept with [useState] (and the two ambient stores the code
    writes, [localStorage] and [axios.defaults.headers.common]) form a
    record, every handler is a function on that record, and what a
    handler sends out (HTTP requests, toasts) is returned as a list of
    effects.  The outcome of an [await]ed HTTP call is an argument of the
    handler, so both the [try] and the [catch] branch can be evaluated;
    a handler runs to its end on the state it was started in, no other
    event comes between its request and the outcome.  The two
    [handleDelete]s of the lists are the exception: after their [await]
    they write a constant of the render they were started in
    ([projects], [tasks]), so for them the constant is an argument, the
    calls in flight are part of the state ([ProjectCards], [TaskCards])
    and other events come in between.  [e.preventDefault()] and the
    values the handlers return to their callers are left out.

    JavaScript strings are sequences of UTF-16 code units, objects are
    finite maps from property names to values. *)

From Stdlib Require Import NArith Ascii String.
From Stdlib Require Import ZArith.
From stdpp Require Import base strings gmap list pretty.

(* ===================================================================== *)
(** ** JavaScript values *)
(* ===================================================================== *)

Module Js.

(** A string is the list of its UTF-16 code units. *)
Definition jsstring := list N.

(** The code units of an ASCII literal of the source. *)
Definition lit (s : string) : jsstring :=
  (fun c => N_of_ascii c) <$> list_ascii_of_string s.

Inductive jsval :=
| JUndefined
| JNull
| JStr (s : jsstring).

#[global] Instance jsval_eq_dec : EqDecision jsval.
Proof. solve_decision. Defined.

(** ToBoolean: of the values modelled, only a non-empty string is
    truthy. *)
Definition truthy (v : jsval) : bool :=
  match v with
  | JStr (_ :: _) => true
  | _ => false
  end.

(** [a === b] on the values modelled. *)
Definition strict_eq (a b : jsval) : bool := bool_decide (a = b).

(** [String(v)]: what a template literal and [localStorage.setItem]
    make of a value. *)
Definition to_string (v : jsval) : jsstring :=
  match v with
  | JUndefined => lit "undefined"
  | JNull => lit "null"
  | JStr s => s
  end.

(** [o.k]: a missing property reads as [undefined]. *)
Definition get (o : gmap string jsval) (k : string) : jsval :=
  default JUndefined (o !! k).

(** WhiteSpace and LineTerminator code points of ECMAScript (all of
    them lie in the basic plane, so they are single code units). *)
Definition is_white_space (c : N) : bool :=
  bool_decide (c ∈ [0x9; 0xA; 0xB; 0xC; 0xD; 0x20; 0xA0; 0x1680;
                     0x2000; 0x2001; 0x2002; 0x2003; 0x2004; 0x2005;
                     0x2006; 0x2007; 0x2008; 0x2009; 0x200A;
                     0x2028; 0x2029; 0x202F; 0x205F; 0x3000; 0xFEFF]%N).

Fixpoint trimStart (s : jsstring) : jsstring :=
  match s with
  | c :: s' => if is_white_space c then trimStart s' else s
  | [] => []
  end.

Definition trimEnd (s : jsstring) : jsstring :=
  reverse (trimStart (reverse s)).

(** [String.prototype.trim]. *)
Definition trim (s : jsstring) : jsstring := trimEnd (trimStart s).

End Js.
Import Js.

(* ===================================================================== *)
(** ** What the client needs from its surroundings *)
(* ===================================================================== *)

(** [process.env.REACT_APP_BACKEND_URL] and the one library function
    whose result depends on the host: [new Date(s).toISOString()], which
    throws a RangeError ([None]) when [s] is not a date. *)
Class Env := {
  REACT_APP_BACKEND_URL : jsval;
  Date_toISOString : jsstring → option jsstring;
}.

Definition BACKEND_URL `{Env} : jsstring :=
  match REACT_APP_BACKEND_URL with
  | JStr (c :: s) => c :: s
  | _ => lit "http://localhost:8000"
  end.

Definition API `{Env} : jsstring := BACKEND_URL ++ lit "/api".

(** ** axios and sonner *)

Inductive method := GET | POST | PUT | DELETE.

Record request := {
  r_method : method;
  r_url : jsstring;
  r_data : option (gmap string jsval);
}.

(** The outcome of an awaited call: the promise resolves with the
    response data or rejects (with [error.response?.data?.detail]). *)
Inductive settled (A : Type) :=
| Resolved (data : A)
| Rejected (detail : jsval).
Arguments Resolved {A} data.
Arguments Rejected {A} detail.

Inductive effect :=
| Http (r : request)
| ToastSuccess (msg : jsstring)
| ToastError (msg : jsstring)
| ToastInfo (msg : jsstring)
| ConsoleError (msg : jsstring).

(* ===================================================================== *)
(** ** AuthProvider *)
(* ===================================================================== *)

Module AuthProvider.

Record user_data := {
  u_id : jsstring;
  u_name : jsstring;
  u_email : jsstring;
}.

(** The component state together with the two ambient stores it
    writes.  [pending] counts the [/auth/me] calls in flight. *)
Record state := {
  user : option user_data;
  token : jsval;
  loading : bool;
  localStorage_token : option jsstring;
  Authorization : option jsstring;
  pending : nat;
}.

(** [localStorage.getItem('token')]: the stored string, or [null]. *)
Definition getItem (stored : option jsstring) : jsval :=
  from_option JStr JNull stored.

(** [useState(null)], [useState(localStorage.getItem('token'))],
    [useState(true)]. *)
Definition initial (stored : option jsstring) : state :=
  {| user := None; token := getItem stored; loading := true;
     localStorage_token := stored; Authorization := None; pending := 0 |}.

Definition Bearer (t : jsstring) : jsstring := lit "Bearer " ++ t.

Definition logout (s : state) : state :=
  {| user := None; token := JNull; loading := loading s;
     localStorage_token := None; Authorization := None;
     pending := pending s |}.

(** [fetchUser] after its [await]: [try] sets the user, [catch] logs
    out, [finally] ends loading. *)
Definition fetchUser (r : settled user_data) (s : state) : state :=
  let s1 :=
    match r with
    | Resolved d =>
        {| user := Some d; token := token s; loading := loading s;
           localStorage_token := localStorage_token s;
           Authorization := Authorization s; pending := pending s |}
    | Rejected _ => logout s
    end in
  {| user := user s1; token := token s1; loading := false;
     localStorage_token := localStorage_token s1;
     Authorization := Authorization s1; pending := pending s1 |}.

(** The effect on [token]: [if (token)] is JavaScript truthiness, the
    empty string counts as no token, like [null] and [undefined]. *)
Definition tokenEffect (s : state) : state :=
  if truthy (token s) then
    {| user := user s; token := token s; loading := loading s;
       localStorage_token := localStorage_token s;
       Authorization := Some (Bearer (to_string (token s)));
       pending := S (pending s) |}
  else
    {| user := user s; token := token s; loading := false;
       localStorage_token := localStorage_token s;
       Authorization := Authorization s; pending := pending s |}.

(** [login] and [register] after their [await]; they differ in the
    request and in the fallback error text only.  [access_token] is
    whatever the answer carries under that name: [setToken] keeps the
    value, [setItem] and the template literal of the header turn it into
    a string. *)
Definition signIn (r : settled (jsval * user_data)) (s : state) : state :=
  match r with
  | Resolved (access_token, userData) =>
      {| user := Some userData; token := access_token;
         loading := loading s;
         localStorage_token := Some (to_string access_token);
         Authorization := Some (Bearer (to_string access_token));
         pending := pending s |}
  | Rejected _ => s
  end.

Definition login := signIn.
Definition register := signIn.

Inductive event :=
| OnLogin (r : settled (jsval * user_data))
| OnRegister (r : settled (jsval * user_data))
| OnLogout
| OnFetchUserSettled (r : settled user_data).

Definition handle (e : event) (s : state) : option state :=
  match e with
  | OnLogin r => Some (login r s)
  | OnRegister r => Some (register r s)
  | OnLogout => Some (logout s)
  | OnFetchUserSettled r =>
      match pending s with
      | S n =>
          Some (fetchUser r
            {| user := user s; token := token s; loading := loading s;
               localStorage_token := localStorage_token s;
               Authorization := Authorization s; pending := n |})
      | O => None
      end
  end.

(** After a handler React renders again and runs the effect when
    [token] is not the value of the previous render. *)
Definition step (e : event) (s : state) : option state :=
  s' ← handle e s;
  Some (if decide (token s' = token s) then s' else tokenEffect s').

(** The provider once mounted: first render, then the effect. *)
Definition mount (stored : option jsstring) : state :=
  tokenEffect (initial stored).

(** The states between two events.  The state of the first render, in
    which the effect has not run yet, is not among them: React runs the
    effect before it handles the next event. *)
Inductive reachable : state → Prop :=
| reach_mount stored : reachable (mount stored)
| reach_step e s s' : reachable s → step e s = Some s' → reachable s'.

Definition logged_out (s : state) : Prop :=
  localStorage_token s = None ∧ token s = JNull ∧ user s = None ∧
  Authorization s = None.

(** A request as it leaves axios: the default header is merged in. *)
Definition send (s : state) (r : request) : request * option jsstring :=
  (r, Authorization s).

End AuthProvider.

(* ===================================================================== *)
(** ** Data the server returns, as far as the components read it *)
(* ===================================================================== *)

Record Member := {
  m_id : jsstring;
  m_name : jsstring;
}.

Record Project := {
  p_id : jsstring;
  p_name : jsstring;
  p_description : jsval;
  member_details : option (list Member);
}.

Record Task := {
  t_id : jsstring;
  t_title : jsstring;
  t_description : jsval;
  t_status : jsval;
  t_assignee_name : jsval;
  t_due_date : jsval;
}.

Record Comment := {
  c_id : jsstring;
  c_user_name : jsval;
  c_message : jsstring;
  c_timestamp : jsstring;
}.

#[global] Instance member_eq_dec : EqDecision Member.
Proof. solve_decision. Defined.
#[global] Instance project_eq_dec : EqDecision Project.
Proof. solve_decision. Defined.
#[global] Instance task_eq_dec : EqDecision Task.
Proof. solve_decision. Defined.

(** The three [SelectItem]s of every status selector in the file
    (TaskCard, the board of ProjectDetail, the creation dialog); they do
    not depend on the task shown. *)
Definition statusItems : list jsstring :=
  [lit "To-Do"; lit "In Progress"; lit "Done"].

(* ===================================================================== *)
(** ** ProjectDashboard and ProjectCard *)
(* ===================================================================== *)

Module ProjectDashboard.

(** The dialog state for creating and editing a project is left out:
    the handlers below do not read it. *)
Record state := {
  projects : list Project;
  loading : bool;
}.

Definition initial : state := {| projects := []; loading := true |}.

Definition fetchProjects (r : settled (list Project)) (s : state)
  : state * list effect :=
  match r with
  | Resolved data => ({| projects := data; loading := false |}, [])
  | Rejected _ =>
      ({| projects := projects s; loading := false |},
       [ToastError (lit "Failed to fetch projects")])
  end.

(** [setProjects(projects.filter(p => p.id !== projectId))].  Every
    render defines its own [handleDelete]; [projects] in it is the
    constant of that render, [rendered], whatever the list has become
    when the function is called. *)
Definition handleDelete (rendered : list Project) (projectId : jsstring)
    (s : state) : state :=
  {| projects := filter (λ p, p_id p ≠ projectId) rendered;
     loading := loading s |}.

End ProjectDashboard.

Module ProjectCard.

(** The call [handleDelete] of the card of [project] starts with. *)
Definition handleDelete_request `{Env} (project : Project) : request :=
  {| r_method := DELETE;
     r_url := API ++ lit "/projects/" ++ p_id project;
     r_data := None |}.

(** [handleDelete] after its [await]; [onDelete] is the prop the card
    was given in the render in which the button was pressed, [P] the
    parent's state.  The second component of the result is
    [showDeleteDialog]. *)
Definition handleDelete {P : Type} (project : Project)
    (onDelete : jsstring → P → P) (r : settled unit)
    (parent : P) (showDeleteDialog : bool) : P * bool * list effect :=
  match r with
  | Resolved _ =>
      (onDelete (p_id project) parent, false,
       [ToastSuccess (lit "Project deleted successfully")])
  | Rejected _ =>
      (parent, showDeleteDialog,
       [ToastError (lit "Failed to delete project")])
  end.

End ProjectCard.

(** The dashboard with its cards and the calls of [handleDelete] that
    await their answer. *)
Module ProjectCards.

(** A call in flight: the card it belongs to and the list of the render
    in which its button was pressed.  The [onDelete] it is going to call
    is [handleDelete] of that render. *)
Record call := {
  card : Project;
  rendered : list Project;
}.

Record state := {
  page : ProjectDashboard.state;
  calls : list call;
}.

(** The dashboard after its first render, [fetchProjects] under way. *)
Definition initial : state :=
  {| page := ProjectDashboard.initial; calls := [] |}.

(** [PressDelete] is the button 'Delete Project' in the dialog of a card
    (the dialog can be dismissed while the call is under way, the call
    goes on); [DeleteSettled i] is the answer to the [i]-th of the calls
    in flight. *)
Inductive event :=
| FetchSettled (r : settled (list Project))
| PressDelete (project : Project)
| DeleteSettled (i : nat) (r : settled unit).

(** The cards are on screen once the spinner is gone, one per project of
    the list; [FetchSettled] may come at any time, as [fetchProjects] is
    called again after every creation and every edit. *)
Definition offered (e : event) (s : state) : bool :=
  match e with
  | FetchSettled _ => true
  | PressDelete project =>
      negb (ProjectDashboard.loading (page s)) &&
      bool_decide (project ∈ ProjectDashboard.projects (page s))
  | DeleteSettled i _ => bool_decide (is_Some (calls s !! i))
  end.

Section Machine.
Context `{E : Env}.

Definition handle (e : event) (s : state) : state * list effect :=
  match e with
  | FetchSettled r =>
      let '(p, out) := ProjectDashboard.fetchProjects r (page s) in
      ({| page := p; calls := calls s |}, out)
  | PressDelete project =>
      ({| page := page s;
          calls := calls s ++
                   [{| card := project;
                       rendered := ProjectDashboard.projects (page s) |}] |},
       [Http (ProjectCard.handleDelete_request project)])
  | DeleteSettled i r =>
      match calls s !! i with
      | Some c =>
          let '(p, _, out) :=
            ProjectCard.handleDelete (card c)
              (ProjectDashboard.handleDelete (rendered c)) r (page s) true in
          ({| page := p; calls := delete i (calls s) |}, out)
      | None => (s, [])
      end
  end.

Definition step (e : event) (s : state) : option (state * list effect) :=
  if offered e s then Some (handle e s) else None.

Fixpoint run (evs : list event) (s : state) : option (state * list effect) :=
  match evs with
  | [] => Some (s, [])
  | e :: evs' =>
      '(s1, out1) ← step e s;
      '(s2, out2) ← run evs' s1;
      Some (s2, out1 ++ out2)
  end.

End Machine.

End ProjectCards.

(* ===================================================================== *)
(** ** MyTasks and TaskCard *)
(* ===================================================================== *)

Module MyTasks.

Record state := {
  tasks : list Task;
  loading : bool;
}.

Definition initial : state := {| tasks := []; loading := true |}.

Definition fetchTasks_request `{Env} : request :=
  {| r_method := GET; r_url := API ++ lit "/users/me/tasks";
     r_data := None |}.

Definition fetchTasks (r : settled (list Task)) (s : state)
  : state * list effect :=
  match r with
  | Resolved data => ({| tasks := data; loading := false |}, [])
  | Rejected _ =>
      ({| tasks := tasks s; loading := false |},
       [ToastError (lit "Failed to fetch tasks")])
  end.

(** [axios.put(`${API}/tasks/${taskId}`, { status: newStatus })]; on
    success the list is fetched again. *)
Definition handleStatusChange `{Env} (taskId newStatus : jsstring)
    (r : settled unit) (s : state) : state * list effect :=
  let req := {| r_method := PUT;
                r_url := API ++ lit "/tasks/" ++ taskId;
                r_data := Some {[ "status" := JStr newStatus ]} |} in
  match r with
  | Resolved _ =>
      (s, [Http req; ToastSuccess (lit "Task status updated");
           Http fetchTasks_request])
  | Rejected _ =>
      (s, [Http req; ToastError (lit "Failed to update task status")])
  end.

(** [setTasks(tasks.filter(t => t.id !== taskId))], with [tasks] the
    constant of the render that defined the function, [rendered]. *)
Definition handleDelete (rendered : list Task) (taskId : jsstring)
    (s : state) : state :=
  {| tasks := filter (λ t, t_id t ≠ taskId) rendered;
     loading := loading s |}.

End MyTasks.

Module TaskCard.

(** The selector of the card: [onValueChange] hands the chosen item to
    the [onStatusChange] prop together with the id of the task. *)
Definition onValueChange {R : Type} (task : Task)
    (onStatusChange : jsstring → jsstring → R) (value : jsstring)
  : option R :=
  if decide (value ∈ statusItems)
  then Some (onStatusChange (t_id task) value)
  else None.

End TaskCard.

(* ===================================================================== *)
(** ** ProjectDetail *)
(* ===================================================================== *)

Module ProjectDetail.

(** The prop [projectId] and the values kept with [useState]. *)
Record state := {
  projectId : jsstring;
  project : option Project;
  tasks : list Task;
  comments : list Comment;
  loading : bool;
  activeTab : jsstring;
  showCreateTask : bool;
  showAddMember : bool;
  newTask : gmap string jsval;
  newMemberEmail : jsstring;
  newComment : jsstring;
}.

(** [{ title: '', description: '', assignee_id: '', due_date: '',
    status: 'To-Do' }] *)
Definition emptyTask : gmap string jsval :=
  <["title" := JStr []]> (<["description" := JStr []]>
  (<["assignee_id" := JStr []]> (<["due_date" := JStr []]>
  (<["status" := JStr (lit "To-Do")]> ∅)))).

Definition initial (pid : jsstring) : state :=
  {| projectId := pid; project := None; tasks := []; comments := [];
     loading := true; activeTab := lit "tasks";
     showCreateTask := false; showAddMember := false;
     newTask := emptyTask; newMemberEmail := []; newComment := [] |}.

(** The setters, one per field written after the first render. *)
Definition setProjectId (v : jsstring) (s : state) : state :=
  {| projectId := v; project := project s; tasks := tasks s;
     comments := comments s; loading := loading s;
     activeTab := activeTab s; showCreateTask := showCreateTask s;
     showAddMember := showAddMember s; newTask := newTask s;
     newMemberEmail := newMemberEmail s; newComment := newComment s |}.
Definition setFetched (p : Project) (ts : list Task) (cs : list Comment)
    (s : state) : state :=
  {| projectId := projectId s; project := Some p; tasks := ts;
     comments := cs; loading := loading s;
     activeTab := activeTab s; showCreateTask := showCreateTask s;
     showAddMember := showAddMember s; newTask := newTask s;
     newMemberEmail := newMemberEmail s; newComment := newComment s |}.
Definition setLoading (v : bool) (s : state) : state :=
  {| projectId := projectId s; project := project s; tasks := tasks s;
     comments := comments s; loading := v;
     activeTab := activeTab s; showCreateTask := showCreateTask s;
     showAddMember := showAddMember s; newTask := newTask s;
     newMemberEmail := newMemberEmail s; newComment := newComment s |}.
Definition setActiveTab (v : jsstring) (s : state) : state :=
  {| projectId := projectId s; project := project s; tasks := tasks s;
     comments := comments s; loading := loading s;
     activeTab := v; showCreateTask := showCreateTask s;
     showAddMember := showAddMember s; newTask := newTask s;
     newMemberEmail := newMemberEmail s; newComment := newComment s |}.
Definition setShowCreateTask (v : bool) (s : state) : state :=
  {| projectId := projectId s; project := project s; tasks := tasks s;
     comments := comments s; loading := loading s;
     activeTab := activeTab s; showCreateTask := v;
     showAddMember := showAddMember s; newTask := newTask s;
     newMemberEmail := newMemberEmail s; newComment := newComment s |}.
Definition setShowAddMember (v : bool) (s : state) : state :=
  {| projectId := projectId s; project := project s; tasks := tasks s;
     comments := comments s; loading := loading s;
     activeTab := activeTab s; showCreateTask := showCreateTask s;
     showAddMember := v; newTask := newTask s;
     newMemberEmail := newMemberEmail s; newComment := newComment s |}.
Definition setNewTask (v : gmap string jsval) (s : state) : state :=
  {| projectId := projectId s; project := project s; tasks := tasks s;
     comments := comments s; loading := loading s;
     activeTab := activeTab s; showCreateTask := showCreateTask s;
     showAddMember := showAddMember s; newTask := v;
     newMemberEmail := newMemberEmail s; newComment := newComment s |}.
Definition setNewMemberEmail (v : jsstring) (s : state) : state :=
  {| projectId := projectId s; project := project s; tasks := tasks s;
     comments := comments s; loading := loading s;
     activeTab := activeTab s; showCreateTask := showCreateTask s;
     showAddMember := showAddMember s; newTask := newTask s;
     newMemberEmail := v; newComment := newComment s |}.
Definition setNewComment (v : jsstring) (s : state) : state :=
  {| projectId := projectId s; project := project s; tasks := tasks s;
     comments := comments s; loading := loading s;
     activeTab := activeTab s; showCreateTask := showCreateTask s;
     showAddMember := showAddMember s; newTask := newTask s;
     newMemberEmail := newMemberEmail s; newComment := v |}.

Section Handlers.
Context `{E : Env}.

Definition projectUrl (s : state) (suffix : string) : jsstring :=
  API ++ lit "/projects/" ++ projectId s ++ lit suffix.

(** The three calls [fetchProjectData] starts with [Promise.all]. *)
Definition fetchProjectData_requests (s : state) : list effect :=
  [Http {| r_method := GET; r_url := projectUrl s ""; r_data := None |};
   Http {| r_method := GET; r_url := projectUrl s "/tasks";
           r_data := None |};
   Http {| r_method := GET; r_url := projectUrl s "/comments";
           r_data := None |}].

(** [fetchProjectData] after its [await]. *)
Definition fetchProjectData
    (r : settled (Project * list Task * list Comment)) (s : state)
  : state * list effect :=
  match r with
  | Resolved (p, ts, cs) => (setLoading false (setFetched p ts cs s), [])
  | Rejected _ =>
      (setLoading false s,
       [ToastError (lit "Failed to fetch project data")])
  end.

(** [newTask.due_date ? new Date(newTask.due_date).toISOString() :
    null]; [None] when [toISOString] throws. *)
Definition due_date_of (nt : gmap string jsval) : option jsval :=
  match get nt "due_date" with
  | JStr (c :: d) => JStr <$> Date_toISOString (c :: d)
  | _ => Some JNull
  end.

(** The body of the creation request:
    [{ ...newTask, due_date: ... }]. *)
Definition createTask_body (nt : gmap string jsval)
  : option (gmap string jsval) :=
  due ← due_date_of nt; Some (<["due_date" := due]> nt).

Definition handleCreateTask (r : settled unit) (s : state)
  : state * list effect :=
  match createTask_body (newTask s) with
  | None => (s, [ToastError (lit "Failed to create task")])
  | Some body =>
      let req := {| r_method := POST; r_url := projectUrl s "/tasks";
                    r_data := Some body |} in
      match r with
      | Resolved _ =>
          (setShowCreateTask false (setNewTask emptyTask s),
           [Http req; ToastSuccess (lit "Task created successfully")]
           ++ fetchProjectData_requests s)
      | Rejected _ =>
          (s, [Http req; ToastError (lit "Failed to create task")])
      end
  end.

Definition handleUpdateTaskStatus (taskId newStatus : jsstring)
    (r : settled unit) (s : state) : state * list effect :=
  let req := {| r_method := PUT;
                r_url := API ++ lit "/tasks/" ++ taskId;
                r_data := Some {[ "status" := JStr newStatus ]} |} in
  match r with
  | Resolved _ =>
      (s, [Http req; ToastSuccess (lit "Task status updated")]
          ++ fetchProjectData_requests s)
  | Rejected _ =>
      (s, [Http req; ToastError (lit "Failed to update task status")])
  end.

Definition handleAddMember (r : settled unit) (s : state)
  : state * list effect :=
  let req := {| r_method := POST; r_url := projectUrl s "/members";
                r_data := Some {[ "email" := JStr (newMemberEmail s) ]} |} in
  match r with
  | Resolved _ =>
      (setShowAddMember false (setNewMemberEmail [] s),
       [Http req; ToastSuccess (lit "Member added successfully")]
       ++ fetchProjectData_requests s)
  | Rejected detail =>
      (s, [Http req;
           ToastError (match detail with
                       | JStr (c :: d) => c :: d
                       | _ => lit "Failed to add member"
                       end)])
  end.

(** [if (!newComment.trim()) return;] comes first. *)
Definition handleAddComment (r : settled unit) (s : state)
  : state * list effect :=
  if negb (truthy (JStr (trim (newComment s)))) then (s, [])
  else
    let req := {| r_method := POST; r_url := projectUrl s "/comments";
                  r_data := Some {[ "message" := JStr (newComment s) ]} |} in
    match r with
    | Resolved _ =>
        (setNewComment [] s, [Http req] ++ fetchProjectData_requests s)
    | Rejected _ =>
        (s, [Http req; ToastError (lit "Failed to add comment")])
    end.

End Handlers.

(** [tasks.filter(task => task.status === status)] *)
Definition getTasksByStatus (s : state) (status : jsval) : list Task :=
  filter (λ task, strict_eq (t_status task) status = true) (tasks s).

(** The board: one column per entry of
    [['To-Do', 'In Progress', 'Done']]. *)
Definition board (s : state) : list (jsstring * list Task) :=
  (λ status, (status, getTasksByStatus s (JStr status))) <$>
  [lit "To-Do"; lit "In Progress"; lit "Done"].

(** The [SelectItem]s of the assignee selector:
    [project.member_details?.map(...)], one item per member, its value
    the member's id. *)
Definition assigneeItems (s : state) : list jsstring :=
  match project s with
  | Some p =>
      match member_details p with
      | Some ms => m_id <$> ms
      | None => []
      end
  | None => []
  end.

(** What can happen to a mounted ProjectDetail.  The [r] of an event
    is the outcome of the call the handler awaits.  [PropsChange] is the
    parent rendering the component with another [projectId]:
    [handleHashChange] of AppContent sets [selectedProjectId] on every
    hashchange, and with the view already on 'project-detail' the same
    component stays mounted, its state kept. *)
Inductive event :=
| PropsChange (pid : jsstring)
| FetchSettled (r : settled (Project * list Task * list Comment))
| OpenChangeCreateTask (open : bool)
| OpenChangeAddMember (open : bool)
| ChangeTitle (v : jsstring)
| ChangeDescription (v : jsstring)
| ChangeAssignee (v : jsstring)
| ChangeDueDate (v : jsstring)
| ChangeStatus (v : jsstring)
| SubmitCreateTask (r : settled unit)
| ChangeTaskStatus (taskId value : jsstring) (r : settled unit)
| ChangeMemberEmail (v : jsstring)
| SubmitAddMember (r : settled unit)
| ChangeTab (v : jsstring)
| ChangeComment (v : jsstring)
| SubmitComment (r : settled unit).

(** The page is on screen: neither the spinner ([if (loading)]) nor
    'Project not found' ([if (!project)]). *)
Definition rendered (s : state) : bool :=
  negb (loading s) && bool_decide (is_Some (project s)).

Definition onBoard (s : state) (taskId : jsstring) : bool :=
  bool_decide (taskId ∈ t_id <$> mjoin (snd <$> board s)).

(** Whether the interface offers the event in state [s]: the widget is
    on screen, a selector hands over one of its items, a [required]
    input is filled in.  The calls of [fetchProjectData] in flight are
    not counted, [FetchSettled] may come at any time. *)
Definition offered (e : event) (s : state) : bool :=
  match e with
  | PropsChange pid => truthy (JStr pid)
  | FetchSettled _ => true
  | OpenChangeCreateTask _ | OpenChangeAddMember _ | ChangeTab _ =>
      rendered s
  | ChangeTitle _ | ChangeDescription _ | ChangeDueDate _ =>
      rendered s && showCreateTask s
  | ChangeAssignee v =>
      rendered s && showCreateTask s && bool_decide (v ∈ assigneeItems s)
  | ChangeStatus v =>
      rendered s && showCreateTask s && bool_decide (v ∈ statusItems)
  | SubmitCreateTask _ =>
      rendered s && showCreateTask s && truthy (get (newTask s) "title")
  | ChangeTaskStatus taskId v _ =>
      rendered s && bool_decide (activeTab s = lit "tasks") &&
      onBoard s taskId && bool_decide (v ∈ statusItems)
  | ChangeMemberEmail _ => rendered s && showAddMember s
  | SubmitAddMember _ =>
      rendered s && showAddMember s && truthy (JStr (newMemberEmail s))
  | ChangeComment _ | SubmitComment _ =>
      rendered s && bool_decide (activeTab s = lit "discussion")
  end.

Section Machine.
Context `{E : Env}.

Definition handle (e : event) (s : state) : state * list effect :=
  match e with
  | PropsChange pid =>
      if decide (pid = projectId s) then (s, [])
      else let s' := setProjectId pid s in
           (s', fetchProjectData_requests s')
  | FetchSettled r => fetchProjectData r s
  | OpenChangeCreateTask open => (setShowCreateTask open s, [])
  | OpenChangeAddMember open => (setShowAddMember open s, [])
  | ChangeTitle v =>
      (setNewTask (<["title" := JStr v]> (newTask s)) s, [])
  | ChangeDescription v =>
      (setNewTask (<["description" := JStr v]> (newTask s)) s, [])
  | ChangeAssignee v =>
      (setNewTask (<["assignee_id" := JStr v]> (newTask s)) s, [])
  | ChangeDueDate v =>
      (setNewTask (<["due_date" := JStr v]> (newTask s)) s, [])
  | ChangeStatus v =>
      (setNewTask (<["status" := JStr v]> (newTask s)) s, [])
  | SubmitCreateTask r => handleCreateTask r s
  | ChangeTaskStatus taskId v r => handleUpdateTaskStatus taskId v r s
  | ChangeMemberEmail v => (setNewMemberEmail v s, [])
  | SubmitAddMember r => handleAddMember r s
  | ChangeTab v => (setActiveTab v s, [])
  | ChangeComment v => (setNewComment v s, [])
  | SubmitComment r => handleAddComment r s
  end.

Definition step (e : event) (s : state) : option (state * list effect) :=
  if offered e s then Some (handle e s) else None.

(** The first render and its effect, which starts the first fetch. *)
Definition mount (pid : jsstring) : state * list effect :=
  (initial pid, fetchProjectData_requests (initial pid)).

Fixpoint run (evs : list event) (s : state)
  : option (state * list effect) :=
  match evs with
  | [] => Some (s, [])
  | e :: evs' =>
      '(s1, out1) ← step e s;
      '(s2, out2) ← run evs' s1;
      Some (s2, out1 ++ out2)
  end.

(** The states a run passes through, the first one included. *)
Fixpoint visited (evs : list event) (s : state) : list state :=
  s :: match evs with
       | [] => []
       | e :: evs' =>
           match step e s with
           | Some (s1, _) => visited evs' s1
           | None => []
           end
       end.

End Machine.

End ProjectDetail.

(* ===================================================================== *)
(** ** The backend, as the specification describes it *)
(* ===================================================================== *)

(** Modelled from the spec: the FastAPI backend (backend/server.py and
    backend/models.py) is not part of the sources at hand.  The module
    follows sections 3, 4 and 7 of the specification: the store with its
    projects, tasks and comments, and the operations of the Task
    Aggregate, the Project Aggregate and the Discussion Log. *)
Module Server.

(** Modelled from the spec: users are referred to by identifier
    (section 3); the identifiers of users are the strings the client
    sees, those of projects and tasks are numbers. *)
Definition uid := jsstring.
(** Modelled from the spec: the identifier of a project or a task. *)
Definition ident := N.

(** Modelled from the spec: section 3, status ∈ {Todo, InProgress,
    Done}. *)
Inductive Status := Todo | InProgress | Done.

(** Modelled from the spec: the taxonomy of section 7 and
    [InvalidAssignee] of 4.4. *)
Inductive Error :=
| ValidationError
| Unauthenticated
| Forbidden
| NotFound
| InvalidAssignee.

(** Modelled from the spec: 4.2, requiredRole ∈ {Member, Owner}. *)
Inductive Role := AsMember | AsOwner.

#[global] Instance Status_eq_dec : EqDecision Status.
Proof. solve_decision. Defined.
#[global] Instance Error_eq_dec : EqDecision Error.
Proof. solve_decision. Defined.

(** Modelled from the spec: section 3, Project.  The owner is a member
    without being stored in [invited]. *)
Record project := {
  owner : uid;
  invited : list uid;
  name : jsstring;
}.

(** Modelled from the spec: section 3, Task. *)
Record task := {
  parent : ident;
  title : jsstring;
  description : option jsstring;
  status : Status;
  assignee : option uid;
  due_date : option jsstring;
}.

(** Modelled from the spec: section 3, Comment. *)
Record comment := {
  c_parent : ident;
  author : uid;
  message : jsstring;
  timestamp : N;
}.

(** Modelled from the spec: the durable store of section 5, with the
    clock that stamps comments and the next free identifier. *)
Record store := {
  projects : gmap ident project;
  tasks : gmap ident task;
  comments : list comment;
  clock : N;
  next_id : ident;
}.

(** Modelled from the spec: section 3, the member set of a project, the
    owner included. *)
Definition is_member (p : project) (u : uid) : bool :=
  bool_decide (u = owner p) || bool_decide (u ∈ invited p).

(** Modelled from the spec: 4.2 [authorize(project, user, requiredRole)]. *)
Definition authorize (p : project) (u : uid) (r : Role) : bool :=
  match r with
  | AsMember => is_member p u
  | AsOwner => bool_decide (u = owner p)
  end.

(** Modelled from the spec: 4.4 [create(project, caller, title,
    description?, assigneeId?, dueDate?, status?)]. *)
Definition createTask (pid : ident) (caller : uid) (ttl : jsstring)
    (desc : option jsstring) (assigneeId : option uid)
    (due : option jsstring) (st0 : option Status) (st : store)
  : store * (Error + task) :=
  match projects st !! pid with
  | None => (st, inl NotFound)
  | Some p =>
      if negb (authorize p caller AsMember) then (st, inl Forbidden)
      else if bool_decide (ttl = []) then (st, inl ValidationError)
      else if negb (from_option (is_member p) true assigneeId)
      then (st, inl InvalidAssignee)
      else
        let t := {| parent := pid; title := ttl; description := desc;
                    status := default Todo st0; assignee := assigneeId;
                    due_date := due |} in
        ({| projects := projects st;
            tasks := <[next_id st := t]> (tasks st);
            comments := comments st; clock := clock st;
            next_id := N.succ (next_id st) |}, inr t)
  end.

(** Modelled from the spec: the patch of 4.4 [update]; it names the
    fields to change, [None] leaves a field alone, [Some None] clears an
    optional one. *)
Record patch := {
  pt_title : option jsstring;
  pt_description : option (option jsstring);
  pt_status : option Status;
  pt_assignee : option (option uid);
  pt_due_date : option (option jsstring);
}.

(** Modelled from the spec: 4.3/4.4, an update applies only the provided
    fields. *)
Definition apply_patch (pt : patch) (t : task) : task :=
  {| parent := parent t;
     title := default (title t) (pt_title pt);
     description := default (description t) (pt_description pt);
     status := default (status t) (pt_status pt);
     assignee := default (assignee t) (pt_assignee pt);
     due_date := default (due_date t) (pt_due_date pt) |}.

(** Modelled from the spec: 4.4 [update(task, patch, caller)]: any
    subset of fields, the status unconstrained, the assignee checked
    as on creation. *)
Definition updateTask (tid : ident) (caller : uid) (pt : patch)
    (st : store) : store * (Error + task) :=
  match tasks st !! tid with
  | None => (st, inl NotFound)
  | Some t =>
      match projects st !! parent t with
      | None => (st, inl NotFound)
      | Some p =>
          if negb (authorize p caller AsMember) then (st, inl Forbidden)
          else if bool_decide (pt_title pt = Some [])
          then (st, inl ValidationError)
          else if negb (from_option (from_option (is_member p) true) true
                                    (pt_assignee pt))
          then (st, inl InvalidAssignee)
          else
            let t' := apply_patch pt t in
            ({| projects := projects st;
                tasks := <[tid := t']> (tasks st);
                comments := comments st; clock := clock st;
                next_id := next_id st |}, inr t')
      end
  end.


(** Modelled from the spec: 4.5 [append(project, caller, message)]: the
    timestamp is the reading of the server's clock. *)
Definition append (pid : ident) (caller : uid) (msg : jsstring)
    (st : store) : store * (Error + comment) :=
  match projects st !! pid with
  | None => (st, inl NotFound)
  | Some p =>
      if negb (authorize p caller AsMember) then (st, inl Forbidden)
      else if bool_decide (trim msg = []) then (st, inl ValidationError)
      else
        let c := {| c_parent := pid; author := caller; message := msg;
                    timestamp := clock st |} in
        ({| projects := projects st; tasks := tasks st;
            comments := comments st ++ [c]; clock := clock st;
            next_id := next_id st |}, inr c)
  end.

(** Modelled from the spec: the three states of 4.4 under the names
    the client sends. *)
Definition status_of_literal (s : jsstring) : option Status :=
  if decide (s = lit "To-Do") then Some Todo
  else if decide (s = lit "In Progress") then Some InProgress
  else if decide (s = lit "Done") then Some Done
  else None.

(** Modelled from the spec: an optional text field of a request body, a
    string or [null]. *)
Definition opt_string (v : jsval) : Error + option jsstring :=
  match v with
  | JStr s => inr (Some s)
  | JNull => inr None
  | JUndefined => inl ValidationError
  end.

(** Modelled from the spec: the body of [PUT /tasks/{id}] read as a
    patch (section 9: a typed request, anything outside its shape is a
    [ValidationError]); a field is provided when its key is present. *)
Definition patch_of_body (b : gmap string jsval) : Error + patch :=
  if negb (bool_decide (dom b ⊆ ({[ "title"; "description"; "status";
                                      "assignee_id"; "due_date" ]}
                                  : gset string)))
  then inl ValidationError
  else
    match
      (match b !! "title" with
       | None => Some None
       | Some (JStr s) => Some (Some s)
       | Some _ => None
       end),
      (match b !! "description" with
       | None => Some None
       | Some v => match opt_string v with
                   | inr o => Some (Some o) | inl _ => None end
       end),
      (match b !! "status" with
       | None => Some None
       | Some (JStr s) => Some <$> status_of_literal s
       | Some _ => None
       end),
      (match b !! "assignee_id" with
       | None => Some None
       | Some v => match opt_string v with
                   | inr o => Some (Some o) | inl _ => None end
       end),
      (match b !! "due_date" with
       | None => Some None
       | Some v => match opt_string v with
                   | inr o => Some (Some o) | inl _ => None end
       end)
    with
    | Some t, Some d, Some s, Some a, Some u =>
        inr {| pt_title := t; pt_description := d; pt_status := s;
               pt_assignee := a; pt_due_date := u |}
    | _, _, _, _, _ => inl ValidationError
    end.

End Server.

(* ===================================================================== *)
(** ** Notions used in the statements *)
(* ===================================================================== *)

(** An environment to evaluate the handlers in: no backend configured,
    and a host whose [toISOString] keeps the text it is given. *)
Definition localEnv : Env :=
  {| REACT_APP_BACKEND_URL := JUndefined;
     Date_toISOString := λ s, Some s |}.

Definition blank (s : jsstring) : bool := forallb is_white_space s.


(** The patch that names the status and nothing else, and a task after
    such a patch. *)
Definition status_patch (s : Server.Status) : Server.patch :=
  {| Server.pt_title := None; Server.pt_description := None;
     Server.pt_status := Some s; Server.pt_assignee := None;
     Server.pt_due_date := None |}.

Definition with_status (s : Server.Status) (t : Server.task) : Server.task :=
  {| Server.parent := Server.parent t; Server.title := Server.title t;
     Server.description := Server.description t; Server.status := s;
     Server.assignee := Server.assignee t;
     Server.due_date := Server.due_date t |}.

(** The request both status handlers send for a task. *)
Definition statusUpdate `{Env} (taskId newStatus : jsstring) : request :=
  {| r_method := PUT; r_url := API ++ lit "/tasks/" ++ taskId;
     r_data := Some {[ "status" := JStr newStatus ]} |}.

(** A small store to evaluate the backend on: project 1 of alice with
    bob invited, its task 7 and one comment; project 2 of bob with
    task 8. *)
Definition alice : Server.uid := lit "alice".
Definition bob : Server.uid := lit "bob".
Definition carol : Server.uid := lit "carol".

Definition launch : Server.project :=
  {| Server.owner := alice; Server.invited := [bob];
     Server.name := lit "Launch" |}.

Definition sideProject : Server.project :=
  {| Server.owner := bob; Server.invited := [];
     Server.name := lit "Side" |}.

Definition writeSpec : Server.task :=
  {| Server.parent := 1%N; Server.title := lit "Write spec";
     Server.description := None; Server.status := Server.Todo;
     Server.assignee := Some bob; Server.due_date := None |}.

Definition sideTask : Server.task :=
  {| Server.parent := 2%N; Server.title := lit "Sketch";
     Server.description := None; Server.status := Server.Done;
     Server.assignee := None; Server.due_date := None |}.

Definition hello : Server.comment :=
  {| Server.c_parent := 1%N; Server.author := bob;
     Server.message := lit "hello"; Server.timestamp := 90%N |}.

Definition sampleStore : Server.store :=
  {| Server.projects := <[1%N := launch]> (<[2%N := sideProject]> ∅);
     Server.tasks := <[7%N := writeSpec]> (<[8%N := sideTask]> ∅);
     Server.comments := [hello];
     Server.clock := 100%N; Server.next_id := 9%N |}.

(** A page of ProjectDetail to evaluate the client on: project "p1"
    with two members and two tasks, the page loaded. *)
Definition ann : Member := {| m_id := lit "u1"; m_name := lit "Ann" |}.
Definition ben : Member := {| m_id := lit "u2"; m_name := lit "Ben" |}.

Definition p1 : Project :=
  {| p_id := lit "p1"; p_name := lit "Launch"; p_description := JNull;
     member_details := Some [ann; ben] |}.

Definition p2 : Project :=
  {| p_id := lit "p2"; p_name := lit "Side"; p_description := JNull;
     member_details := Some [ann] |}.

Definition t1 : Task :=
  {| t_id := lit "t1"; t_title := lit "Write spec"; t_description := JNull;
     t_status := JStr (lit "To-Do"); t_assignee_name := JNull;
     t_due_date := JNull |}.

Definition t2 : Task :=
  {| t_id := lit "t2"; t_title := lit "Review"; t_description := JNull;
     t_status := JStr (lit "Done"); t_assignee_name := JStr (lit "Ben");
     t_due_date := JNull |}.

Definition loadedPage : ProjectDetail.state :=
  fst (ProjectDetail.fetchProjectData (Resolved (p1, [t1; t2], []))
         (ProjectDetail.initial (lit "p1"))).

(** The request [handleAddComment] sends. *)
Definition commentAppend `{Env} (s : ProjectDetail.state) : request :=
  {| r_method := POST; r_url := ProjectDetail.projectUrl s "/comments";
     r_data := Some {[ "message" := JStr (ProjectDetail.newComment s) ]} |}.

(** Two ways to read "the default Authorization header equals
    'Bearer <token>' exactly when a token is present" on a state: a token
    is present when it is not [null], or when it is truthy as in
    [if (token)]. *)
Definition header_iff_token_not_null (s : AuthProvider.state) : Prop :=
  match AuthProvider.token s with
  | JNull => AuthProvider.Authorization s = None
  | v => AuthProvider.Authorization s =
           Some (AuthProvider.Bearer (to_string v))
  end.

Definition header_iff_token_truthy (s : AuthProvider.state) : Prop :=
  if truthy (AuthProvider.token s)
  then AuthProvider.Authorization s =
         Some (AuthProvider.Bearer (to_string (AuthProvider.token s)))
  else AuthProvider.Authorization s = None.

(** A session token as the backend issues it on login and registration,
    a signed token: a string that is not empty. *)
Definition session_token (v : jsval) : bool :=
  match v with
  | JStr (_ :: _) => true
  | _ => false
  end.

(** An event whose answer keeps to that: the [access_token] of a login
    or a registration that succeeded is a session token. *)
Definition answer_ok (e : AuthProvider.event) : bool :=
  match e with
  | AuthProvider.OnLogin (Resolved (access_token, _))
  | AuthProvider.OnRegister (Resolved (access_token, _)) =>
      session_token access_token
  | _ => true
  end.

(** What a mounting provider finds under 'token': nothing, or a session
    token.  Only [login] and [register] write that key, [logout] removes
    it. *)
Definition stored_ok (stored : option jsstring) : bool :=
  match stored with
  | None => true
  | Some t => session_token (JStr t)
  end.

(** The states of the provider between two events when every token it
    is given is a session token. *)
Inductive in_session : AuthProvider.state → Prop :=
| session_mount stored :
    stored_ok stored = true → in_session (AuthProvider.mount stored)
| session_step e s s' :
    in_session s → answer_ok e = true →
    AuthProvider.step e s = Some s' → in_session s'.

(** What holds of token, header and store in those states. *)
Definition header_follows_token (s : AuthProvider.state) : Prop :=
  (AuthProvider.token s = JNull ∧ AuthProvider.Authorization s = None ∧
   AuthProvider.localStorage_token s = None) ∨
  (∃ c t, AuthProvider.token s = JStr (c :: t) ∧
          AuthProvider.Authorization s =
            Some (AuthProvider.Bearer (c :: t)) ∧
          AuthProvider.localStorage_token s = Some (c :: t)).

Definition someUser : AuthProvider.user_data :=
  {| AuthProvider.u_id := lit "u1"; AuthProvider.u_name := lit "Ann";
     AuthProvider.u_email := lit "ann@x.com" |}.

(** The session after a login whose answer carries [v] as
    [access_token]. *)
Definition loginWith (v : jsval) : AuthProvider.state :=
  default (AuthProvider.mount None)
    (AuthProvider.step (AuthProvider.OnLogin (Resolved (v, someUser)))
       (AuthProvider.mount None)).

(** A dashboard with three projects. *)
Definition p3 : Project :=
  {| p_id := lit "p3"; p_name := lit "Third"; p_description := JNull;
     member_details := None |}.





(** The assignee of a form: none chosen, or an item the selector showed
    in one of the states [seen]. *)
Definition assignee_chosen_on (seen : ProjectDetail.state → Prop)
    (nt : gmap string jsval) : Prop :=
  nt !! "assignee_id" = Some (JStr []) ∨
  ∃ s0 a, seen s0 ∧ a ∈ ProjectDetail.assigneeItems s0 ∧
          nt !! "assignee_id" = Some (JStr a).

(** The request [handleCreateTask] sends for the body [body]. *)
Definition taskCreation `{Env} (s : ProjectDetail.state)
    (body : gmap string jsval) : request :=
  {| r_method := POST; r_url := ProjectDetail.projectUrl s "/tasks";
     r_data := Some body |}.

(** "Every creation request submitted with an assignee names a member of
    the parent project", on the client: whenever the form can be
    submitted, a non-empty [assignee_id] of its body is the id of a
    member listed for the project on the page. *)
Definition submits_members_only `{Env} : Prop :=
  ∀ pid evs s out r body a,
    ProjectDetail.run evs (ProjectDetail.initial pid) = Some (s, out) →
    ProjectDetail.offered (ProjectDetail.SubmitCreateTask r) s = true →
    ProjectDetail.createTask_body (ProjectDetail.newTask s) = Some body →
    body !! "assignee_id" = Some (JStr a) → a ≠ [] →
    a ∈ ProjectDetail.assigneeItems s.

(** Ben is chosen on the page of project p1; the browser then goes to
    project p2, of which Ben is no member, and the page, still the same
    component, loads p2; the form gets a title. *)
Definition staleAssignee : list ProjectDetail.event :=
  [ProjectDetail.FetchSettled (Resolved (p1, [t1; t2], []));
   ProjectDetail.OpenChangeCreateTask true;
   ProjectDetail.ChangeAssignee (lit "u2");
   ProjectDetail.PropsChange (lit "p2");
   ProjectDetail.FetchSettled (Resolved (p2, [], []));
   ProjectDetail.ChangeTitle (lit "Ship")].

(** The form as the dialog opens it, with a title typed in and nothing
    else touched. *)
Definition titledTask (ttl : jsstring) : gmap string jsval :=
  <["title" := JStr ttl]> ProjectDetail.emptyTask.

(* ===================================================================== *)
(** ** More of String.prototype *)
(* ===================================================================== *)

Module JsString.

(** [s.startsWith(p)] *)
Fixpoint startsWith (s p : jsstring) : bool :=
  match p, s with
  | [], _ => true
  | _ :: _, [] => false
  | a :: p', c :: s' => bool_decide (c = a) && startsWith s' p'
  end.

(** [s.replace(pat, rep)] for a string pattern: the first occurrence of
    [pat] is replaced ([rep] is a text without [$]). *)
Fixpoint replace (pat rep s : jsstring) : jsstring :=
  if startsWith s pat then rep ++ drop (length pat) s
  else match s with
       | [] => []
       | c :: s' => c :: replace pat rep s'
       end.

(** [s.split(sep)] for a separator of one code unit. *)
Fixpoint split (sep : N) (s : jsstring) : list jsstring :=
  match s with
  | [] => [[]]
  | c :: s' =>
      if bool_decide (c = sep) then [] :: split sep s'
      else match split sep s' with
           | seg :: rest => (c :: seg) :: rest
           | [] => [[c]]
           end
  end.

(** [a[i]] on an array of strings: [undefined] out of range. *)
Definition at_index (a : list jsstring) (i : nat) : jsval :=
  from_option JStr JUndefined (a !! i).

(** [s.slice(0, n)] *)
Definition slice0 (n : nat) (s : jsstring) : jsstring := take n s.

End JsString.

(* ===================================================================== *)
(** ** window.location.hash *)
(* ===================================================================== *)

(** The fragment of the address as the browser keeps it, after the URL
    Standard (the parser's fragment state, entered by the setter of
    [location.hash]) and the HTML Standard (getter and setter of
    [Location.hash]). *)
Module Location.

(** The fragment percent-encode set: the C0 controls, space, the
    quotation mark, the less-than and the greater-than sign, the grave
    accent, and every code point above the tilde. *)
Definition encoded (c : N) : bool :=
  (c <=? 0x20)%N || (0x7E <? c)%N ||
  bool_decide (c ∈ [0x22; 0x3C; 0x3E; 0x60]%N).

(** ASCII tab and newline, which the parser removes from its input. *)
Definition tab_or_newline (c : N) : bool :=
  bool_decide (c ∈ [0x9; 0xA; 0xD]%N).

Definition hexDigit (n : N) : N :=
  if (n <? 10)%N then (0x30 + n)%N else (0x37 + n)%N.

(** A byte percent-encoded: the percent sign and two upper-case
    hexadecimal digits. *)
Definition percent (b : N) : jsstring :=
  [0x25%N; hexDigit (b / 16); hexDigit (b mod 16)].

(** The bytes of a scalar value in UTF-8. *)
Definition utf8 (cp : N) : list N :=
  if (cp <? 0x80)%N then [cp]
  else if (cp <? 0x800)%N then
    [0xC0 + cp / 0x40; 0x80 + cp mod 0x40]%N
  else if (cp <? 0x10000)%N then
    [0xE0 + cp / 0x1000; 0x80 + (cp / 0x40) mod 0x40;
     0x80 + cp mod 0x40]%N
  else
    [0xF0 + cp / 0x40000; 0x80 + (cp / 0x1000) mod 0x40;
     0x80 + (cp / 0x40) mod 0x40; 0x80 + cp mod 0x40]%N.

(** A code point of the encode set, percent-encoded byte by byte. *)
Definition percentEncode (cp : N) : jsstring := utf8 cp ≫= percent.

Definition highSurrogate (c : N) : bool :=
  (0xD800 <=? c)%N && (c <=? 0xDBFF)%N.
Definition lowSurrogate (c : N) : bool :=
  (0xDC00 <=? c)%N && (c <=? 0xDFFF)%N.

(** The fragment the parser makes of its input.  The input is a
    USVString: a surrogate pair is one code point, a surrogate without
    its partner is read as U+FFFD.  Tabs and newlines are dropped, a
    code point of the encode set is percent-encoded, any other is
    kept. *)
Fixpoint fragment (input : jsstring) : jsstring :=
  match input with
  | [] => []
  | c :: rest =>
      if tab_or_newline c then fragment rest
      else if negb (encoded c) then c :: fragment rest
      else if highSurrogate c then
        match rest with
        | d :: rest' =>
            if lowSurrogate d
            then percentEncode
                   (0x10000 + (c - 0xD800) * 0x400 + (d - 0xDC00))%N
                 ++ fragment rest'
            else percentEncode 0xFFFD%N ++ fragment rest
        | [] => percentEncode 0xFFFD%N
        end
      else if lowSurrogate c then percentEncode 0xFFFD%N ++ fragment rest
      else percentEncode c ++ fragment rest
  end.

Definition hashMark : N := 0x23.

(** What [location.hash] reads after [location.hash = v]: the setter
    takes one leading number sign off [v] and parses the rest as the
    fragment; the getter returns the empty string for an empty fragment
    and the number sign followed by the fragment otherwise. *)
Definition assign (v : jsstring) : jsstring :=
  let input := match v with
               | c :: v' => if bool_decide (c = hashMark) then v' else v
               | [] => []
               end in
  match fragment input with
  | [] => []
  | f => hashMark :: f
  end.

(** A string none of whose code units the parser touches. *)
Definition verbatim (s : jsstring) : bool :=
  forallb (λ c, negb (encoded c)) s.

End Location.

(* ===================================================================== *)
(** ** AppContent *)
(* ===================================================================== *)

Module AppContent.

(** [activeView], [selectedProjectId] and the fragment of the address
    bar, [window.location.hash], which the handlers read and write. *)
Record state := {
  activeView : jsstring;
  selectedProjectId : jsval;
  location_hash : jsstring;
}.

(** [useState('projects')], [useState(null)], at the address the page
    was opened with. *)
Definition initial (hash : jsstring) : state :=
  {| activeView := lit "projects"; selectedProjectId := JNull;
     location_hash := hash |}.

Definition slash : N := 0x2F.

Definition handleHashChange (s : state) : state :=
  let hash := JsString.replace (lit "#/") [] (location_hash s) in
  if JsString.startsWith hash (lit "projects/") then
    {| activeView := lit "project-detail";
       selectedProjectId :=
         JsString.at_index (JsString.split slash hash) 1;
       location_hash := location_hash s |}
  else if bool_decide (hash = lit "tasks") then
    {| activeView := lit "tasks";
       selectedProjectId := selectedProjectId s;
       location_hash := location_hash s |}
  else
    {| activeView := lit "projects";
       selectedProjectId := selectedProjectId s;
       location_hash := location_hash s |}.

(** [window.location.hash = `#/projects/${projectId}`] comes last;
    [location_hash] is what the browser makes of the assigned text. *)
Definition handleProjectSelect (projectId : jsstring) (s : state) : state :=
  {| activeView := lit "project-detail";
     selectedProjectId := JStr projectId;
     location_hash := Location.assign (lit "#/projects/" ++ projectId) |}.

Definition handleBackToProjects (s : state) : state :=
  {| activeView := lit "projects"; selectedProjectId := JNull;
     location_hash := Location.assign [] |}.

(** The prop [setActiveView] as the Sidebar calls it. *)
Definition setActiveView (v : jsstring) (s : state) : state :=
  {| activeView := v; selectedProjectId := selectedProjectId s;
     location_hash := location_hash s |}.

(** The ids of [sidebarItems]. *)
Definition sidebarItems : list jsstring := [lit "projects"; lit "tasks"].

(** The effect of the first render: the initial check. *)
Definition mount (hash : jsstring) : state := handleHashChange (initial hash).

(** [Hashchange h]: the fragment becomes [h] (address bar, history) and
    the listener runs.  [Select] and [Back] are the two handlers; the
    hashchange they may cause is an event of its own, [Listener]. *)
Inductive event :=
| Hashchange (h : jsstring)
| Listener
| Select (projectId : jsstring)
| Back
| Sidebar (item : jsstring).

Definition step (e : event) (s : state) : option state :=
  match e with
  | Hashchange h =>
      Some (handleHashChange
              {| activeView := activeView s;
                 selectedProjectId := selectedProjectId s;
                 location_hash := h |})
  | Listener => Some (handleHashChange s)
  | Select projectId => Some (handleProjectSelect projectId s)
  | Back => Some (handleBackToProjects s)
  | Sidebar item =>
      if bool_decide (item ∈ sidebarItems) then Some (setActiveView item s)
      else None
  end.

Inductive reachable : state → Prop :=
| reach_mount hash : reachable (mount hash)
| reach_step e s s' : reachable s → step e s = Some s' → reachable s'.

(** What the component returns. *)
Inductive main :=
| ShowProjectDashboard
| ShowMyTasks
| ShowProjectDetail (projectId : jsval)
| ShowNothing.

Inductive screen :=
| Spinner
| ShowLogin
| Shell (m : main).

Definition render (auth : AuthProvider.state) (s : state) : screen :=
  if AuthProvider.loading auth then Spinner
  else if negb (bool_decide (is_Some (AuthProvider.user auth))) then ShowLogin
  else Shell
    (if bool_decide (activeView s = lit "projects") then ShowProjectDashboard
     else if bool_decide (activeView s = lit "tasks") then ShowMyTasks
     else if bool_decide (activeView s = lit "project-detail")
             && truthy (selectedProjectId s)
          then ShowProjectDetail (selectedProjectId s)
     else ShowNothing).

End AppContent.

(** The part of a project id up to its first slash. *)
Definition firstSegment (projectId : jsstring) : jsstring :=
  default [] (head (JsString.split AppContent.slash projectId)).

Definition loggedIn (u : AuthProvider.user_data) : AuthProvider.state :=
  {| AuthProvider.user := Some u;
     AuthProvider.token := JStr (lit "abc");
     AuthProvider.loading := false;
     AuthProvider.localStorage_token := Some (lit "abc");
     AuthProvider.Authorization := Some (lit "Bearer abc");
     AuthProvider.pending := 0 |}.

(** The number sign with which a non-empty [location.hash] begins. *)
Definition numberSign : N := 0x23.

(** What AppContent keeps between events: the view is one of the three,
    and the detail view has a string for its project. *)
Definition view_ok (s : AppContent.state) : Prop :=
  AppContent.activeView s ∈
    [lit "projects"; lit "tasks"; lit "project-detail"] ∧
  (AppContent.activeView s = lit "project-detail" →
   ∃ projectId, AppContent.selectedProjectId s = JStr projectId).

(* ===================================================================== *)
(** ** TaskCard: the due date and the delete button *)
(* ===================================================================== *)

(** What [formatDueDate] needs from the host: the time value of
    [new Date(s)] in milliseconds ([None] for an invalid date) and the
    text of [date.toLocaleDateString()]. *)
Class DateHost := {
  Date_parse : jsstring → option Z;
  toLocaleDateString : option Z → jsstring;
}.

Module TaskCardView.

Record dueInfo := {
  text : jsstring;
  color : jsstring;
  bgColor : jsstring;
}.

(** [1000 * 60 * 60 * 24] *)
Definition msPerDay : Z := 1000 * 60 * 60 * 24.

(** [Math.ceil(a / b)] for integers [a] and [b > 0].  Time values are
    integers; with [now] a present-day clock reading and [date] any
    valid date their difference stays below 2^53 in magnitude, the
    double quotient then has the ceiling of the exact quotient. *)
Definition ceilDiv (a b : Z) : Z := (- ((- a) / b))%Z.

(** The decimal digits of a whole number, as a template literal prints
    it. *)
Definition digits (n : Z) : jsstring := lit (pretty (Z.to_N n)).

(** [formatDueDate(dateString)] at the clock reading [now].  An invalid
    date makes [diffDays] NaN, every comparison false, and the last
    branch is taken. *)
Definition formatDueDate `{DateHost} (now : Z) (dateString : jsval)
  : option dueInfo :=
  if negb (truthy dateString) then None
  else
    match dateString with
    | JStr s =>
        match Date_parse s with
        | Some date =>
            let diffTime := (date - now)%Z in
            let diffDays := ceilDiv diffTime msPerDay in
            if (diffDays <? 0)%Z then
              Some {| text := digits (Z.abs diffDays) ++ lit " days overdue";
                      color := lit "text-red-600";
                      bgColor := lit "bg-red-50" |}
            else if (diffDays =? 0)%Z then
              Some {| text := lit "Due today";
                      color := lit "text-orange-600";
                      bgColor := lit "bg-orange-50" |}
            else if (diffDays =? 1)%Z then
              Some {| text := lit "Due tomorrow";
                      color := lit "text-yellow-600";
                      bgColor := lit "bg-yellow-50" |}
            else if (diffDays <=? 7)%Z then
              Some {| text := lit "Due in " ++ digits diffDays ++ lit " days";
                      color := lit "text-blue-600";
                      bgColor := lit "bg-blue-50" |}
            else
              Some {| text := toLocaleDateString (Some date);
                      color := lit "text-gray-600";
                      bgColor := lit "bg-gray-50" |}
        | None =>
            Some {| text := toLocaleDateString None;
                    color := lit "text-gray-600";
                    bgColor := lit "bg-gray-50" |}
        end
    | _ => None
    end.

(** The call [handleDelete] of the card of [task] starts with. *)
Definition handleDelete_request `{Env} (task : Task) : request :=
  {| r_method := DELETE;
     r_url := API ++ lit "/tasks/" ++ t_id task;
     r_data := None |}.

(** [handleDelete] after its [await]; [onDelete] is the prop the card
    was given in the render in which the button was pressed, [P] the
    parent's state, the second component [showDeleteDialog]. *)
Definition handleDelete {P : Type} (task : Task)
    (onDelete : jsstring → P → P) (r : settled unit)
    (parent : P) (showDeleteDialog : bool) : P * bool * list effect :=
  match r with
  | Resolved _ =>
      (onDelete (t_id task) parent, false,
       [ToastSuccess (lit "Task deleted successfully")])
  | Rejected _ =>
      (parent, showDeleteDialog,
       [ToastError (lit "Failed to delete task")])
  end.

End TaskCardView.

(** My Tasks with its cards and the calls of [handleDelete] that await
    their answer. *)
Module TaskCards.

(** A call in flight: its card and the list of the render in which the
    button was pressed. *)
Record call := {
  card : Task;
  rendered : list Task;
}.

Record state := {
  page : MyTasks.state;
  calls : list call;
}.

Definition initial : state := {| page := MyTasks.initial; calls := [] |}.

(** [PressDelete] is the button 'Delete Task' of a card's dialog,
    [DeleteSettled i] the answer to the [i]-th call in flight;
    [FetchSettled] may come at any time, [fetchTasks] is called again
    after every status change. *)
Inductive event :=
| FetchSettled (r : settled (list Task))
| PressDelete (task : Task)
| DeleteSettled (i : nat) (r : settled unit).

Definition offered (e : event) (s : state) : bool :=
  match e with
  | FetchSettled _ => true
  | PressDelete task =>
      negb (MyTasks.loading (page s)) &&
      bool_decide (task ∈ MyTasks.tasks (page s))
  | DeleteSettled i _ => bool_decide (is_Some (calls s !! i))
  end.

Section Machine.
Context `{E : Env}.

Definition handle (e : event) (s : state) : state * list effect :=
  match e with
  | FetchSettled r =>
      let '(p, out) := MyTasks.fetchTasks r (page s) in
      ({| page := p; calls := calls s |}, out)
  | PressDelete task =>
      ({| page := page s;
          calls := calls s ++
                   [{| card := task;
                       rendered := MyTasks.tasks (page s) |}] |},
       [Http (TaskCardView.handleDelete_request task)])
  | DeleteSettled i r =>
      match calls s !! i with
      | Some c =>
          let '(p, _, out) :=
            TaskCardView.handleDelete (card c)
              (MyTasks.handleDelete (rendered c)) r (page s) true in
          ({| page := p; calls := delete i (calls s) |}, out)
      | None => (s, [])
      end
  end.

Definition step (e : event) (s : state) : option (state * list effect) :=
  if offered e s then Some (handle e s) else None.

Fixpoint run (evs : list event) (s : state) : option (state * list effect) :=
  match evs with
  | [] => Some (s, [])
  | e :: evs' =>
      '(s1, out1) ← step e s;
      '(s2, out2) ← run evs' s1;
      Some (s2, out1 ++ out2)
  end.

End Machine.

End TaskCards.

(** A host for evaluating [formatDueDate]: its dates are decimal
    numerals of milliseconds. *)
Definition numeralHost : DateHost :=
  {| Date_parse := λ s,
       if decide (s = lit "90000000") then Some 90000000%Z
       else if decide (s = lit "60000") then Some 60000%Z
       else None;
     toLocaleDateString := λ d,
       match d with Some _ => lit "1/2/1970" | None => lit "Invalid Date" end |}.

(** While the session is loading, a call of [/auth/me] is in flight. *)
Definition loading_has_call (s : AuthProvider.state) : Prop :=
  AuthProvider.loading s = true → ∃ n, AuthProvider.pending s = S n.

(** The session right after a login that the server accepted. *)
Definition freshLogin : AuthProvider.state :=
  default (AuthProvider.mount None)
    (AuthProvider.step
       (AuthProvider.OnLogin (Resolved (JStr (lit "abc"), someUser)))
       (AuthProvider.mount None)).

(** The page of MyTasks with the two tasks and one more. *)
Definition t3 : Task :=
  {| t_id := lit "t3"; t_title := lit "Ship"; t_description := JNull;
     t_status := JStr (lit "In Progress"); t_assignee_name := JNull;
     t_due_date := JNull |}.

Definition myTasksPage : TaskCards.state :=
  {| TaskCards.page :=
       {| MyTasks.tasks := [t1; t2; t3]; MyTasks.loading := false |};
     TaskCards.calls := [] |}.

(** The request the delete button of the card of [task] sends. *)
Definition taskDeletion `{Env} (task : Task) : request :=
  {| r_method := DELETE; r_url := API ++ lit "/tasks/" ++ t_id task;
     r_data := None |}.

(** The shape of the creation form: the five keys, every value a
    string, the status one of the three items. *)
Definition formKeys : gset string :=
  {[ "title"; "description"; "assignee_id"; "due_date"; "status" ]}.

Definition form_ok (nt : gmap string jsval) : Prop :=
  dom nt = formKeys ∧
  (∀ k v, nt !! k = Some v → ∃ s, v = JStr s) ∧
  (∃ v, v ∈ statusItems ∧ nt !! "status" = Some (JStr v)).

(** [disabled={!newComment.trim()}] of the Send button. *)
Definition sendDisabled (s : ProjectDetail.state) : bool :=
  negb (truthy (JStr (trim (ProjectDetail.newComment s)))).

(** The request [handleAddMember] sends. *)
Definition memberInvite `{Env} (s : ProjectDetail.state) : request :=
  {| r_method := POST; r_url := ProjectDetail.projectUrl s "/members";
     r_data := Some {[ "email" := JStr (ProjectDetail.newMemberEmail s) ]} |}.

(** The requests of the project page other than its GETs, each with the
    state [s0] in which it was sent. *)
Definition request_from `{Env} (s0 : ProjectDetail.state) (q : request)
  : Prop :=
  r_method q = GET ∨
  (∃ body, ProjectDetail.createTask_body (ProjectDetail.newTask s0)
             = Some body ∧ q = taskCreation s0 body) ∨
  (q = memberInvite s0 ∧ ProjectDetail.newMemberEmail s0 ≠ []) ∨
  (q = commentAppend s0 ∧ blank (ProjectDetail.newComment s0) = false) ∨
  (∃ taskId v, ProjectDetail.onBoard s0 taskId = true ∧ v ∈ statusItems ∧
               q = statusUpdate taskId v).

(** A host whose [toISOString] fails on every text. *)
Definition strictEnv : Env :=
  {| REACT_APP_BACKEND_URL := JUndefined;
     Date_toISOString := λ _, None |}.

(** The dialog is opened on the loaded page, a title and a due date are
    typed. *)
Definition typeTitleAndDate : list ProjectDetail.event :=
  [ProjectDetail.FetchSettled (Resolved (p1, [t1; t2], []));
   ProjectDetail.OpenChangeCreateTask true;
   ProjectDetail.ChangeTitle (lit "Ship");
   ProjectDetail.ChangeDueDate (lit "2026-01-01T10:00")].

(** On the loaded page the second task is moved to In Progress, then a
    comment is sent. *)
Definition moveAndComment : list ProjectDetail.event :=
  [ProjectDetail.FetchSettled (Resolved (p1, [t1; t2], []));
   ProjectDetail.ChangeTaskStatus (lit "t2") (lit "In Progress") (Resolved ());
   ProjectDetail.ChangeTab (lit "discussion");
   ProjectDetail.ChangeComment (lit "hi");
   ProjectDetail.SubmitComment (Resolved ())].

(* ===================================================================== *)
(** ** ProjectDashboard: the two dialogs *)
(* ===================================================================== *)

Module DashboardForms.

(** A project of the list with its [deadline], which [handleEdit]
    reads. *)
Record ListedProject := {
  listed : Project;
  deadline : jsval;
}.

(** All the state of ProjectDashboard: the list and its [loading] as
    before, and the dialogs with the form they share. *)
Record state := {
  projectList : ProjectDashboard.state;
  showCreateProject : bool;
  showEditProject : bool;
  editingProject : option ListedProject;
  newProject : gmap string jsval;
}.

(** [{ name: '', description: '', deadline: '' }] *)
Definition emptyProject : gmap string jsval :=
  <["name" := JStr []]> (<["description" := JStr []]>
  (<["deadline" := JStr []]> ∅)).

Definition initial : state :=
  {| projectList := ProjectDashboard.initial;
     showCreateProject := false; showEditProject := false;
     editingProject := None; newProject := emptyProject |}.

Definition setProjectList (v : ProjectDashboard.state) (s : state) : state :=
  {| projectList := v; showCreateProject := showCreateProject s;
     showEditProject := showEditProject s;
     editingProject := editingProject s; newProject := newProject s |}.
Definition setShowCreateProject (v : bool) (s : state) : state :=
  {| projectList := projectList s; showCreateProject := v;
     showEditProject := showEditProject s;
     editingProject := editingProject s; newProject := newProject s |}.
Definition setShowEditProject (v : bool) (s : state) : state :=
  {| projectList := projectList s; showCreateProject := showCreateProject s;
     showEditProject := v;
     editingProject := editingProject s; newProject := newProject s |}.
Definition setEditingProject (v : option ListedProject) (s : state) : state :=
  {| projectList := projectList s; showCreateProject := showCreateProject s;
     showEditProject := showEditProject s;
     editingProject := v; newProject := newProject s |}.
Definition setNewProject (v : gmap string jsval) (s : state) : state :=
  {| projectList := projectList s; showCreateProject := showCreateProject s;
     showEditProject := showEditProject s;
     editingProject := editingProject s; newProject := v |}.

Section Handlers.
Context `{E : Env}.

Definition fetchProjects_request : effect :=
  Http {| r_method := GET; r_url := API ++ lit "/projects"; r_data := None |}.

(** [{ ...newProject, deadline: newProject.deadline ? new
    Date(newProject.deadline).toISOString() : null }]; [None] when
    [toISOString] throws. *)
Definition project_body (np : gmap string jsval)
  : option (gmap string jsval) :=
  match get np "deadline" with
  | JStr (c :: d) =>
      iso ← Date_toISOString (c :: d);
      Some (<["deadline" := JStr iso]> np)
  | _ => Some (<["deadline" := JNull]> np)
  end.

Definition handleCreateProject (r : settled unit) (s : state)
  : state * list effect :=
  match project_body (newProject s) with
  | None => (s, [ToastError (lit "Failed to create project")])
  | Some body =>
      let req := {| r_method := POST; r_url := API ++ lit "/projects";
                    r_data := Some body |} in
      match r with
      | Resolved _ =>
          (setShowCreateProject false (setNewProject emptyProject s),
           [Http req; ToastSuccess (lit "Project created successfully");
            fetchProjects_request])
      | Rejected _ =>
          (s, [Http req; ToastError (lit "Failed to create project")])
      end
  end.

(** [editingProject.id] throws on [null], inside the [try]. *)
Definition handleEditProject (r : settled unit) (s : state)
  : state * list effect :=
  match editingProject s with
  | None => (s, [ToastError (lit "Failed to update project")])
  | Some p =>
      match project_body (newProject s) with
      | None => (s, [ToastError (lit "Failed to update project")])
      | Some body =>
          let req := {| r_method := PUT;
                        r_url := API ++ lit "/projects/" ++ p_id (listed p);
                        r_data := Some body |} in
          match r with
          | Resolved _ =>
              (setEditingProject None
                 (setShowEditProject false (setNewProject emptyProject s)),
               [Http req; ToastSuccess (lit "Project updated successfully");
                fetchProjects_request])
          | Rejected _ =>
              (s, [Http req; ToastError (lit "Failed to update project")])
          end
      end
  end.

(** The form [handleEdit] fills in for a project; [None] when
    [toISOString] throws on its deadline. *)
Definition prefill (p : ListedProject) : option (gmap string jsval) :=
  dl ← match deadline p with
       | JStr (c :: d) =>
           JsString.slice0 16 <$> Date_toISOString (c :: d)
       | _ => Some []
       end;
  Some (<["name" := JStr (p_name (listed p))]>
        (<["description" :=
             if truthy (p_description (listed p))
             then p_description (listed p) else JStr []]>
        (<["deadline" := JStr dl]> ∅))).

(** [handleEdit(project)]: [setEditingProject] has run when the object
    literal throws. *)
Definition handleEdit (p : ListedProject) (s : state) : state :=
  match prefill p with
  | Some form =>
      setShowEditProject true (setNewProject form (setEditingProject (Some p) s))
  | None => setEditingProject (Some p) s
  end.

End Handlers.

(** [CardDelete p r] is a delete of the card of [p] from the press of
    the button to the answer [r], the list the same at both ends; the
    deletes that other events come in between are those of
    [ProjectCards]. *)
Inductive event :=
| FetchSettled (r : settled (list Project))
| OpenChangeCreate (open : bool)
| CloseEdit
| ClickEdit (p : ListedProject)
| ChangeName (v : jsstring)
| ChangeDescription (v : jsstring)
| ChangeDeadline (v : jsstring)
| SubmitCreate (r : settled unit)
| SubmitEdit (r : settled unit)
| CardDelete (p : Project) (r : settled unit).

(** Whether the page offers the event: the page is past its spinner, the
    dialog of a field or a submission is open, the [required] name is
    filled in, the card clicked is in the list.  The edit dialog has no
    trigger: it is opened by [handleEdit] only. *)
Definition offered (e : event) (s : state) : bool :=
  let shown := negb (ProjectDashboard.loading (projectList s)) in
  match e with
  | FetchSettled _ => true
  | OpenChangeCreate _ => shown
  | CloseEdit => shown && showEditProject s
  | ClickEdit p =>
      shown && bool_decide (listed p ∈ ProjectDashboard.projects (projectList s))
  | ChangeName _ | ChangeDescription _ | ChangeDeadline _ =>
      shown && (showCreateProject s || showEditProject s)
  | SubmitCreate _ =>
      shown && showCreateProject s && truthy (get (newProject s) "name")
  | SubmitEdit _ =>
      shown && showEditProject s && truthy (get (newProject s) "name")
  | CardDelete p _ =>
      shown && bool_decide (p ∈ ProjectDashboard.projects (projectList s))
  end.

Section Machine.
Context `{E : Env}.

Definition handle (e : event) (s : state) : state * list effect :=
  match e with
  | FetchSettled r =>
      let '(l, out) := ProjectDashboard.fetchProjects r (projectList s) in
      (setProjectList l s, out)
  | OpenChangeCreate open => (setShowCreateProject open s, [])
  | CloseEdit => (setShowEditProject false s, [])
  | ClickEdit p => (handleEdit p s, [])
  | ChangeName v => (setNewProject (<["name" := JStr v]> (newProject s)) s, [])
  | ChangeDescription v =>
      (setNewProject (<["description" := JStr v]> (newProject s)) s, [])
  | ChangeDeadline v =>
      (setNewProject (<["deadline" := JStr v]> (newProject s)) s, [])
  | SubmitCreate r => handleCreateProject r s
  | SubmitEdit r => handleEditProject r s
  | CardDelete p r =>
      let '(l, _, out) :=
        ProjectCard.handleDelete p
          (ProjectDashboard.handleDelete
             (ProjectDashboard.projects (projectList s))) r
          (projectList s) true in
      (setProjectList l s, Http (ProjectCard.handleDelete_request p) :: out)
  end.

Definition step (e : event) (s : state) : option (state * list effect) :=
  if offered e s then Some (handle e s) else None.

(** The first render and its effect, [fetchProjects()]. *)
Definition mount : state * list effect := (initial, [fetchProjects_request]).

Fixpoint run (evs : list event) (s : state) : option (state * list effect) :=
  match evs with
  | [] => Some (s, [])
  | e :: evs' =>
      '(s1, out1) ← step e s;
      '(s2, out2) ← run evs' s1;
      Some (s2, out1 ++ out2)
  end.

End Machine.

End DashboardForms.






(** The first project of the dashboard as the list has it, without a
    deadline, and the dashboard showing the three projects. *)
Definition listedP1 : DashboardForms.ListedProject :=
  {| DashboardForms.listed := p1; DashboardForms.deadline := JNull |}.


Definition cancelledEdit : list DashboardForms.event :=
  [DashboardForms.FetchSettled (Resolved [p1; p2; p3]);
   DashboardForms.ClickEdit listedP1;
   DashboardForms.CloseEdit;
   DashboardForms.OpenChangeCreate true].


(* ===================================================================== *)
(** * Properties *)
(* ===================================================================== *)

(** ** Strings *)

Lemma trimStart_blank s : blank s = true → trimStart s = [].
Proof.
  induction s as [|c s IH]; simpl; [done|].
  intros [Hc Hs]%andb_prop. rewrite Hc. auto.
Qed.

Lemma trimStart_nil_blank s : trimStart s = [] → blank s = true.
Proof.
  induction s as [|c s IH]; simpl; [done|].
  destruct (is_white_space c); [auto | discriminate].
Qed.

Lemma blank_reverse s : blank (reverse s) = blank s.
Proof.
  unfold blank. apply eq_true_iff_eq.
  rewrite !forallb_forall. setoid_rewrite <- list_elem_of_In.
  by setoid_rewrite elem_of_reverse.
Qed.

Lemma blank_trimStart s : blank (trimStart s) = true → trimStart s = [].
Proof.
  induction s as [|c s IH]; simpl; [done|].
  destruct (is_white_space c) eqn:Hc; [done|].
  simpl. by rewrite Hc.
Qed.

(** [trim] leaves nothing exactly when every code unit is white space. *)
Lemma trim_nil_iff_blank s : trim s = [] ↔ blank s = true.
Proof.
  unfold trim, trimEnd. split.
  - intros Hnil.
    assert (Hrev : trimStart (reverse (trimStart s)) = []).
    { apply (f_equal reverse) in Hnil. by rewrite reverse_involutive in Hnil. }
    apply trimStart_nil_blank in Hrev. rewrite blank_reverse in Hrev.
    by apply trimStart_nil_blank, blank_trimStart.
  - intros Hb. by rewrite (trimStart_blank s Hb).
Qed.

Lemma truthy_trim s : truthy (JStr (trim s)) = negb (blank s).
Proof.
  destruct (blank s) eqn:Hb.
  - apply trim_nil_iff_blank in Hb. by rewrite Hb.
  - destruct (trim s) eqn:Ht; [|done].
    apply trim_nil_iff_blank in Ht. congruence.
Qed.

(** ** The discussion form *)

Lemma handleAddComment_cases `{Env}
    (r : settled unit) (s : ProjectDetail.state) :
  if blank (ProjectDetail.newComment s)
  then ProjectDetail.handleAddComment r s = (s, [])
  else ∃ s' out,
      ProjectDetail.handleAddComment r s =
        (s', Http (commentAppend s) :: out) ∧
      ProjectDetail.comments s' = ProjectDetail.comments s.
Proof.
  unfold ProjectDetail.handleAddComment. rewrite truthy_trim, negb_involutive.
  destruct (blank _); [done|].
  destruct r; eauto.
Qed.

(** C6: a comment that is empty or consists of white space only is not
    sent: [handleAddComment] returns at once, no request goes out and the
    state (the comments, the input) is as before; for any other comment
    the handler issues the POST to the project's comments with the
    comment as its message, whatever the outcome of the call. *)
Theorem handleAddComment_blank_guard `{Env}
    (r : settled unit) (s : ProjectDetail.state) :
  if forallb is_white_space (ProjectDetail.newComment s)
  then ProjectDetail.handleAddComment r s = (s, [])
  else ∃ s' out,
      ProjectDetail.handleAddComment r s =
        (s', Http {| r_method := POST;
                     r_url := ProjectDetail.projectUrl s "/comments";
                     r_data := Some {[ "message" :=
                                 JStr (ProjectDetail.newComment s) ]} |}
             :: out).
Proof.
  pose proof (handleAddComment_cases r s) as Hc. unfold blank in Hc.
  destruct (forallb _ _); [done|].
  destruct Hc as (s' & out & Heq & _). eauto.
Qed.

Example blank_comment_not_sent :
  ProjectDetail.handleAddComment (E := localEnv) (Resolved ())
    (ProjectDetail.setNewComment [0x20; 0x3000; 0x9; 0xA]%N
       (ProjectDetail.initial (lit "p1")))
  = (ProjectDetail.setNewComment [0x20; 0x3000; 0x9; 0xA]%N
       (ProjectDetail.initial (lit "p1")), []).
Proof. reflexivity. Qed.

(** ** The board *)

Lemma strict_eq_true (a b : jsval) : strict_eq a b = true ↔ a = b.
Proof. unfold strict_eq. by rewrite bool_decide_eq_true. Qed.

Lemma getTasksByStatus_elem (s : ProjectDetail.state) (v : jsval) (t : Task) :
  t ∈ ProjectDetail.getTasksByStatus s v ↔
  t ∈ ProjectDetail.tasks s ∧ t_status t = v.
Proof.
  unfold ProjectDetail.getTasksByStatus.
  rewrite list_elem_of_filter, strict_eq_true. tauto.
Qed.

(** Two literals of the source that differ. *)
Ltac lit_discr :=
  match goal with
  | Hd : JStr _ = JStr _ |- _ => by vm_compute in Hd
  | Hd : lit _ = lit _ |- _ => by vm_compute in Hd
  | |- JStr _ ≠ JStr _ => by vm_compute
  | |- lit _ ≠ lit _ => by vm_compute
  end.

Lemma filter_app_exclusive {A} (P Q : A → Prop)
    `{!∀ x, Decision (P x), !∀ x, Decision (Q x)} (l : list A) :
  (∀ x, P x → Q x → False) →
  filter P l ++ filter Q l ≡ₚ filter (λ x, P x ∨ Q x) l.
Proof.
  intros Hex. induction l as [|x l IH]; [done|].
  rewrite !filter_cons.
  destruct (decide (P x)) as [HP|HP], (decide (Q x)) as [HQ|HQ].
  - destruct (Hex x HP HQ).
  - rewrite decide_True by tauto. simpl. by rewrite IH.
  - rewrite decide_True by tauto. by rewrite <- Permutation_middle, IH.
  - rewrite decide_False by tauto. done.
Qed.

Lemma list_filter_iff_perm {A} (P Q : A → Prop)
    `{!∀ x, Decision (P x), !∀ x, Decision (Q x)} (l : list A) :
  (∀ x, P x ↔ Q x) → filter P l ≡ₚ filter Q l.
Proof. intros HPQ. by rewrite (list_filter_iff P Q l HPQ). Qed.

Lemma statusItems_distinct : NoDup statusItems.
Proof. apply (bool_decide_unpack _). by vm_compute. Qed.

(** C10: [getTasksByStatus(status)] keeps, in their order, exactly the
    tasks whose [status] is the given string; the three columns of the
    board are the tasks bearing one of the three statuses, each task in
    the column of its status and in no other, and a task with any other
    status is in no column. *)
Theorem getTasksByStatus_board (s : ProjectDetail.state) :
  (∀ status : jsstring,
      ProjectDetail.getTasksByStatus s (JStr status) =
        ProjectDetail.tasks s ≫=
          (λ t, if decide (t_status t = JStr status) then [t] else [])) ∧
  (∀ (status : jsstring) t,
      t ∈ ProjectDetail.getTasksByStatus s (JStr status) ↔
      t ∈ ProjectDetail.tasks s ∧ t_status t = JStr status) ∧
  (∀ status : jsstring,
      sublist (ProjectDetail.getTasksByStatus s (JStr status))
              (ProjectDetail.tasks s)) ∧
  ProjectDetail.board s =
    [(lit "To-Do", ProjectDetail.getTasksByStatus s (JStr (lit "To-Do")));
     (lit "In Progress",
      ProjectDetail.getTasksByStatus s (JStr (lit "In Progress")));
     (lit "Done", ProjectDetail.getTasksByStatus s (JStr (lit "Done")))] ∧
  mjoin (snd <$> ProjectDetail.board s) ≡ₚ
    filter (λ t, t_status t ∈ JStr <$> statusItems)
           (ProjectDetail.tasks s) ∧
  (∀ t c col, t ∈ ProjectDetail.tasks s → t_status t = JStr c →
      (c, col) ∈ ProjectDetail.board s →
      t ∈ col ∧
      ∀ c' col', (c', col') ∈ ProjectDetail.board s → t ∈ col' → c' = c) ∧
  (∀ t, (∀ c, c ∈ statusItems → t_status t ≠ JStr c) →
      ∀ c col, (c, col) ∈ ProjectDetail.board s → t ∉ col).
Proof.
  assert (Hcol : ∀ c col, (c, col) ∈ ProjectDetail.board s →
            c ∈ statusItems ∧ col = ProjectDetail.getTasksByStatus s (JStr c)).
  { intros c col Hin. unfold ProjectDetail.board in Hin.
    apply list_elem_of_fmap in Hin as (c0 & [= -> ->] & Hc0). done. }
  split_and!.
  - intros status. unfold ProjectDetail.getTasksByStatus.
    induction (ProjectDetail.tasks s) as [|t l IH]; [done|].
    rewrite filter_cons, bind_cons, <- IH.
    destruct (decide (t_status t = JStr status)) as [Heq|Hne].
    + rewrite decide_True by by apply strict_eq_true. done.
    + rewrite decide_False by by rewrite strict_eq_true. done.
  - intros. apply getTasksByStatus_elem.
  - intros. apply sublist_filter.
  - reflexivity.
  - unfold ProjectDetail.board, ProjectDetail.getTasksByStatus. simpl.
    rewrite app_nil_r.
    rewrite !filter_app_exclusive.
    + apply list_filter_iff_perm. intros t.
      rewrite !strict_eq_true. unfold statusItems. cbn [fmap list_fmap].
      rewrite !elem_of_cons, elem_of_nil. tauto.
    + intros t. rewrite !strict_eq_true. intros -> [?|?]; lit_discr.
    + intros t. rewrite !strict_eq_true. intros -> ?. lit_discr.
  - intros t c col Ht Hst Hin. apply Hcol in Hin as [_ ->]. split.
    + by apply getTasksByStatus_elem.
    + intros c' col' Hin' Ht'. apply Hcol in Hin' as [_ ->].
      apply getTasksByStatus_elem in Ht' as [_ Hst']. congruence.
  - intros t Hother c col Hin Ht. apply Hcol in Hin as [Hc ->].
    apply getTasksByStatus_elem in Ht as [_ Hst]. by eapply Hother.
Qed.

Lemma getTasksByStatus_board_witness :
  (t1 ∈ ProjectDetail.tasks loadedPage ∧
   t_status t1 = JStr (lit "To-Do") ∧
   (lit "To-Do", [t1]) ∈ ProjectDetail.board loadedPage) ∧
  t1 ∈ [t1] ∧
  ProjectDetail.getTasksByStatus loadedPage (JStr (lit "Done")) = [t2].
Proof.
  assert (Ht : t1 ∈ ProjectDetail.tasks loadedPage)
    by apply list_elem_of_here.
  assert (Hs : t_status t1 = JStr (lit "To-Do")) by reflexivity.
  assert (Hc : (lit "To-Do", [t1]) ∈ ProjectDetail.board loadedPage)
    by apply list_elem_of_here.
  split; [done|].
  destruct (getTasksByStatus_board loadedPage)
    as (Heq & _ & _ & _ & _ & Hcol & _).
  split.
  - exact (proj1 (Hcol t1 (lit "To-Do") [t1] Ht Hs Hc)).
  - rewrite Heq. reflexivity.
Defined.

(** ** The backend of the specification *)

Lemma status_of_literal_items (v : jsstring) (s : Server.Status) :
  Server.status_of_literal v = Some s → v ∈ statusItems.
Proof.
  unfold Server.status_of_literal, statusItems.
  rewrite !elem_of_cons.
  destruct (decide (v = lit "To-Do")); [auto|].
  destruct (decide (v = lit "In Progress")); [auto|].
  destruct (decide (v = lit "Done")); [auto|done].
Qed.

Lemma status_of_literal_onto (s : Server.Status) :
  ∃ v, v ∈ statusItems ∧ Server.status_of_literal v = Some s.
Proof.
  destruct s;
    [exists (lit "To-Do") | exists (lit "In Progress") | exists (lit "Done")];
    (split; [unfold statusItems; rewrite !elem_of_cons; auto | by vm_compute]).
Qed.

Lemma status_of_literal_total (v : jsstring) :
  v ∈ statusItems → is_Some (Server.status_of_literal v).
Proof.
  unfold statusItems. rewrite !elem_of_cons, elem_of_nil.
  intros [->|[->|[->|[]]]];
    [exists Server.Todo | exists Server.InProgress | exists Server.Done];
    by vm_compute.
Qed.

Lemma patch_of_status_body (v : jsstring) :
  Server.patch_of_body {[ "status" := JStr v ]} =
    match Server.status_of_literal v with
    | Some s => inr (status_patch s)
    | None => inl Server.ValidationError
    end.
Proof.
  unfold Server.patch_of_body.
  rewrite bool_decide_eq_true_2 by (rewrite dom_singleton_L; set_solver).
  rewrite lookup_singleton_eq, !lookup_singleton_ne by done.
  simpl. by destruct (Server.status_of_literal v).
Qed.

Lemma updateTask_status (st : Server.store) (tid : Server.ident)
    (caller : Server.uid) (s : Server.Status) (t : Server.task)
    (p : Server.project) :
  Server.tasks st !! tid = Some t →
  Server.projects st !! Server.parent t = Some p →
  Server.is_member p caller = true →
  Server.updateTask tid caller (status_patch s) st =
    ({| Server.projects := Server.projects st;
        Server.tasks := <[tid := with_status s t]> (Server.tasks st);
        Server.comments := Server.comments st;
        Server.clock := Server.clock st;
        Server.next_id := Server.next_id st |}, inr (with_status s t)).
Proof.
  intros Ht Hp Hm. unfold Server.updateTask. rewrite Ht, Hp. simpl.
  by rewrite Hm.
Qed.

(** ** Status updates *)

Lemma status_body_dom (v : jsstring) :
  dom ({[ "status" := JStr v ]} : gmap string jsval) = {[ "status" ]}.
Proof. apply dom_singleton_L. Qed.

(** C4: the update that [handleStatusChange] (MyTasks) and
    [handleUpdateTaskStatus] (ProjectDetail) send is
    [PUT /tasks/{id}] with the body [{ status: newStatus }]: its only
    key is [status], it is the only request of the handler that is not a
    GET, and the handler leaves the component state as it is.  On the
    backend of the specification this body is a patch of the status
    alone: the update of an authorised caller changes the status and
    keeps the parent, title, description, assignee and due date of the
    task. *)
Theorem status_update_carries_status_only `{Env}
    (taskId newStatus : jsstring) :
  (∀ r s, ∃ out,
      MyTasks.handleStatusChange taskId newStatus r s =
        (s, Http (statusUpdate taskId newStatus) :: out) ∧
      ∀ q, Http q ∈ out → r_method q = GET) ∧
  (∀ r s, ∃ out,
      ProjectDetail.handleUpdateTaskStatus taskId newStatus r s =
        (s, Http (statusUpdate taskId newStatus) :: out) ∧
      ∀ q, Http q ∈ out → r_method q = GET) ∧
  (∃ b : gmap string jsval,
      r_data (statusUpdate taskId newStatus) = Some b ∧
      dom b = {[ "status" ]} ∧ b !! "status" = Some (JStr newStatus) ∧
      ∀ st tid caller t p sv,
        Server.status_of_literal newStatus = Some sv →
        Server.tasks st !! tid = Some t →
        Server.projects st !! Server.parent t = Some p →
        Server.is_member p caller = true →
        ∃ pt st' t',
          Server.patch_of_body b = inr pt ∧
          Server.updateTask tid caller pt st = (st', inr t') ∧
          Server.tasks st' = <[tid := t']> (Server.tasks st) ∧
          Server.status t' = sv ∧
          Server.parent t' = Server.parent t ∧
          Server.title t' = Server.title t ∧
          Server.description t' = Server.description t ∧
          Server.assignee t' = Server.assignee t ∧
          Server.due_date t' = Server.due_date t).
Proof.
  split_and!.
  - intros [[]|d] s; eexists; (split; [reflexivity|]).
    + intros q. rewrite !elem_of_cons, elem_of_nil.
      intros [?|[?|[]]]; by simplify_eq.
    + intros q. rewrite !elem_of_cons, elem_of_nil.
      intros [?|[]]; by simplify_eq.
  - intros [[]|d] s; eexists; (split; [reflexivity|]).
    + intros q. unfold ProjectDetail.fetchProjectData_requests.
      rewrite !elem_of_cons, elem_of_nil.
      intros [?|[?|[?|[?|[]]]]]; by simplify_eq.
    + intros q. rewrite !elem_of_cons, elem_of_nil.
      intros [?|[]]; by simplify_eq.
  - eexists. split; [reflexivity|]. split; [apply status_body_dom|].
    split; [apply lookup_singleton_eq|].
    intros st tid caller t p sv Hsv Ht Hp Hm.
    exists (status_patch sv). eexists. exists (with_status sv t).
    rewrite patch_of_status_body, Hsv.
    rewrite (updateTask_status st tid caller sv t p Ht Hp Hm).
    done.
Qed.

Lemma status_update_witness :
  (Server.status_of_literal (lit "Done") = Some Server.Done ∧
   Server.tasks sampleStore !! 7%N = Some writeSpec ∧
   Server.projects sampleStore !! Server.parent writeSpec = Some launch ∧
   Server.is_member launch bob = true) ∧
  ∃ st' t',
    Server.updateTask 7%N bob (status_patch Server.Done) sampleStore
      = (st', inr t') ∧
    Server.status t' = Server.Done ∧
    Server.title t' = lit "Write spec" ∧
    Server.assignee t' = Some bob.
Proof.
  assert (H1 : Server.status_of_literal (lit "Done") = Some Server.Done)
    by reflexivity.
  assert (H2 : Server.tasks sampleStore !! 7%N = Some writeSpec)
    by reflexivity.
  assert (H3 : Server.projects sampleStore !! Server.parent writeSpec
               = Some launch) by reflexivity.
  assert (H4 : Server.is_member launch bob = true) by reflexivity.
  split; [done|].
  destruct (status_update_carries_status_only (H := localEnv)
              (lit "7") (lit "Done")) as (_ & _ & b & Hb & _ & _ & Hsrv).
  injection Hb as <-.
  destruct (Hsrv sampleStore 7%N bob writeSpec launch Server.Done
              H1 H2 H3 H4)
    as (pt & st' & t' & Hpt & Hup & _ & Hst & _ & Hti & _ & Has & _).
  rewrite patch_of_status_body, H1 in Hpt. injection Hpt as <-.
  exists st', t'. rewrite Hti, Has. done.
Defined.

Lemma onBoard_of_column (s : ProjectDetail.state) c col (task : Task) :
  (c, col) ∈ ProjectDetail.board s → task ∈ col →
  ProjectDetail.onBoard s (t_id task) = true.
Proof.
  intros Hc Ht. apply bool_decide_eq_true.
  apply list_elem_of_fmap. exists task. split; [done|].
  apply list_elem_of_join. exists col. split; [done|].
  apply list_elem_of_fmap. by exists (c, col).
Qed.

(** C2: every status selector (the card of MyTasks, the board of
    ProjectDetail) has the three items To-Do, In Progress and Done
    whatever the status of the task it belongs to, and choosing an item
    sends the update of that task with exactly the chosen status.  On the
    backend of the specification each of the three items is one of the
    three states, and for any two states s1 and s2 a member of the parent
    project takes a task from s1 to s2. *)
Theorem status_selector_all_transitions `{Env} :
  statusItems = [lit "To-Do"; lit "In Progress"; lit "Done"] ∧
  (∀ (task : Task) (value : jsstring) r (s : MyTasks.state),
      value ∈ statusItems →
      ∃ out,
        TaskCard.onValueChange task
          (λ taskId v, MyTasks.handleStatusChange taskId v r s) value =
        Some (s, Http (statusUpdate (t_id task) value) :: out)) ∧
  (∀ (s : ProjectDetail.state) c col (task : Task) (value : jsstring) r,
      ProjectDetail.rendered s = true →
      ProjectDetail.activeTab s = lit "tasks" →
      (c, col) ∈ ProjectDetail.board s → task ∈ col →
      value ∈ statusItems →
      ∃ out,
        ProjectDetail.step
          (ProjectDetail.ChangeTaskStatus (t_id task) value r) s =
        Some (s, Http (statusUpdate (t_id task) value) :: out)) ∧
  (∀ s1 s2 : Server.Status, ∃ value,
      value ∈ statusItems ∧
      Server.status_of_literal value = Some s2 ∧
      ∀ st tid caller t p,
        Server.tasks st !! tid = Some t →
        Server.status t = s1 →
        Server.projects st !! Server.parent t = Some p →
        Server.is_member p caller = true →
        ∃ pt st' t',
          Server.patch_of_body {[ "status" := JStr value ]} = inr pt ∧
          Server.updateTask tid caller pt st = (st', inr t') ∧
          Server.tasks st' !! tid = Some t' ∧
          Server.status t' = s2).
Proof.
  split_and!.
  - reflexivity.
  - intros task value r s Hv. unfold TaskCard.onValueChange.
    rewrite decide_True by done. destruct r; eexists; reflexivity.
  - intros s c col task value r Hr Htab Hc Ht Hv.
    unfold ProjectDetail.step. simpl.
    rewrite Hr, (onBoard_of_column s c col task Hc Ht).
    rewrite !bool_decide_eq_true_2 by done. simpl.
    destruct r; eexists; reflexivity.
  - intros s1 s2. destruct (status_of_literal_onto s2) as (value & Hv & Hs2).
    exists value. split_and!; [done..|].
    intros st tid caller t p Ht _ Hp Hm.
    exists (status_patch s2). eexists. exists (with_status s2 t).
    rewrite patch_of_status_body, Hs2.
    rewrite (updateTask_status st tid caller s2 t p Ht Hp Hm).
    split_and!; [done..| |done].
    cbn [Server.tasks]. apply lookup_insert_eq.
Qed.

Lemma status_selector_witness :
  (lit "In Progress" ∈ statusItems ∧
   ProjectDetail.rendered loadedPage = true ∧
   ProjectDetail.activeTab loadedPage = lit "tasks" ∧
   (lit "Done", [t2]) ∈ ProjectDetail.board loadedPage ∧ t2 ∈ [t2] ∧
   Server.tasks sampleStore !! 8%N = Some sideTask ∧
   Server.status sideTask = Server.Done ∧
   Server.projects sampleStore !! Server.parent sideTask = Some sideProject ∧
   Server.is_member sideProject bob = true) ∧
  (∃ out,
      ProjectDetail.step (E := localEnv)
        (ProjectDetail.ChangeTaskStatus (lit "t2") (lit "In Progress")
           (Resolved ())) loadedPage =
      Some (loadedPage,
            Http (statusUpdate (H := localEnv) (lit "t2") (lit "In Progress"))
            :: out)) ∧
  (∃ value pt st' t',
      value ∈ statusItems ∧
      Server.patch_of_body {[ "status" := JStr value ]} = inr pt ∧
      Server.updateTask 8%N bob pt sampleStore = (st', inr t') ∧
      Server.status t' = Server.Todo).
Proof.
  assert (Hv : lit "In Progress" ∈ statusItems).
  { unfold statusItems. rewrite !elem_of_cons. auto. }
  assert (Hr : ProjectDetail.rendered loadedPage = true) by reflexivity.
  assert (Htab : ProjectDetail.activeTab loadedPage = lit "tasks")
    by reflexivity.
  assert (Hc : (lit "Done", [t2]) ∈ ProjectDetail.board loadedPage).
  { apply (bool_decide_unpack _). by vm_compute. }
  assert (Ht : t2 ∈ [t2]) by apply list_elem_of_here.
  assert (H1 : Server.tasks sampleStore !! 8%N = Some sideTask)
    by reflexivity.
  assert (H2 : Server.status sideTask = Server.Done) by reflexivity.
  assert (H3 : Server.projects sampleStore !! Server.parent sideTask
               = Some sideProject) by reflexivity.
  assert (H4 : Server.is_member sideProject bob = true) by reflexivity.
  split; [done|].
  destruct (status_selector_all_transitions (H := localEnv))
    as (_ & _ & Hboard & Hsrv).
  split.
  - exact (Hboard loadedPage (lit "Done") [t2] t2 (lit "In Progress")
             (Resolved ()) Hr Htab Hc Ht Hv).
  - destruct (Hsrv Server.Done Server.Todo) as (value & Hin & _ & Hup).
    destruct (Hup sampleStore 8%N bob sideTask sideProject H1 H2 H3 H4)
      as (pt & st' & t' & Hpt & Hupd & _ & Hst).
    by exists value, pt, st', t'.
Defined.

(** ** Comments *)

Lemma fetchProjectData_requests_GET `{Env} (s : ProjectDetail.state) q :
  Http q ∈ ProjectDetail.fetchProjectData_requests s → r_method q = GET.
Proof.
  unfold ProjectDetail.fetchProjectData_requests.
  rewrite !elem_of_cons, elem_of_nil.
  intros [?|[?|[?|[]]]]; by simplify_eq.
Qed.

(** C9: the request with which the client appends a comment carries the
    message and nothing else: the body of the POST has the one key
    [message], no timestamp, and the handler sends no other request than
    this POST and the GETs that reload the page.  On the backend of the
    specification [append] takes the message only and stamps the comment
    with the reading of its own clock. *)
Theorem comment_append_carries_message_only `{Env}
    (r : settled unit) (s : ProjectDetail.state) :
  (∀ q, Http q ∈ (ProjectDetail.handleAddComment r s).2 →
        r_method q ≠ GET → q = commentAppend s) ∧
  (blank (ProjectDetail.newComment s) = false →
     ∃ s' out,
       ProjectDetail.handleAddComment r s = (s', Http (commentAppend s) :: out)) ∧
  (∃ b : gmap string jsval,
      r_data (commentAppend s) = Some b ∧
      dom b = {[ "message" ]} ∧
      b !! "message" = Some (JStr (ProjectDetail.newComment s)) ∧
      b !! "timestamp" = None) ∧
  (∀ st pid caller p msg,
      Server.projects st !! pid = Some p →
      Server.is_member p caller = true →
      blank msg = false →
      ∃ st' c,
        Server.append pid caller msg st = (st', inr c) ∧
        Server.comments st' = Server.comments st ++ [c] ∧
        Server.timestamp c = Server.clock st ∧
        Server.message c = msg ∧ Server.author c = caller ∧
        Server.c_parent c = pid).
Proof.
  split_and!.
  - intros q. unfold ProjectDetail.handleAddComment.
    destruct (negb _); simpl; [by rewrite elem_of_nil|].
    destruct r; simpl; rewrite ?elem_of_cons.
    + intros [?|Hq] Hm; [by simplify_eq|].
      by apply fetchProjectData_requests_GET in Hq.
    + rewrite elem_of_nil. intros [?|[?|[]]] Hm; by simplify_eq.
  - intros Hb. pose proof (handleAddComment_cases r s) as Hg.
    rewrite Hb in Hg. destruct Hg as (s' & out & Heq & _). eauto.
  - eexists. split; [reflexivity|]. split; [apply dom_singleton_L|].
    split; [apply lookup_singleton_eq | by apply lookup_singleton_ne].
  - intros st pid caller p msg Hp Hm Hb. unfold Server.append.
    rewrite Hp. simpl. rewrite Hm. simpl.
    rewrite bool_decide_eq_false_2; [by eauto 10|].
    rewrite trim_nil_iff_blank. congruence.
Qed.

Lemma comment_append_witness :
  (blank (lit "hi") = false ∧
   Server.projects sampleStore !! 1%N = Some launch ∧
   Server.is_member launch bob = true) ∧
  (∃ s' out,
      ProjectDetail.handleAddComment (E := localEnv) (Resolved ())
        (ProjectDetail.setNewComment (lit "hi") loadedPage) =
      (s', Http (commentAppend (H := localEnv)
                   (ProjectDetail.setNewComment (lit "hi") loadedPage))
           :: out)) ∧
  (∃ st' c,
      Server.append 1%N bob (lit "hi") sampleStore = (st', inr c) ∧
      Server.timestamp c = 100%N).
Proof.
  assert (Hb : blank (lit "hi") = false) by reflexivity.
  assert (Hp : Server.projects sampleStore !! 1%N = Some launch)
    by reflexivity.
  assert (Hm : Server.is_member launch bob = true) by reflexivity.
  split; [done|].
  destruct (comment_append_carries_message_only (H := localEnv) (Resolved ())
              (ProjectDetail.setNewComment (lit "hi") loadedPage))
    as (_ & Hsend & _ & Hsrv).
  split; [exact (Hsend Hb)|].
  destruct (Hsrv sampleStore 1%N bob launch (lit "hi") Hp Hm Hb)
    as (st' & c & Happ & _ & Hts & _).
  exists st', c. split; [done|]. by rewrite Hts.
Defined.

(** ** The session *)

Lemma session_token_string (v : jsval) :
  session_token v = true → ∃ c t, v = JStr (c :: t).
Proof. destruct v as [| |[|c t]]; try done. by exists c, t. Qed.

Lemma header_follows_token_mount stored :
  stored_ok stored = true →
  header_follows_token (AuthProvider.mount stored).
Proof.
  unfold header_follows_token, AuthProvider.mount, AuthProvider.tokenEffect.
  destruct stored as [[|c t]|]; simpl; [done| |].
  - intros _. right. by exists c, t.
  - intros _. by left.
Qed.

Lemma header_follows_token_tokenEffect s :
  header_follows_token s → header_follows_token (AuthProvider.tokenEffect s).
Proof.
  unfold header_follows_token, AuthProvider.tokenEffect.
  intros [(Ht & Ha & Hs)|(c & t & Ht & Ha & Hs)]; rewrite Ht; simpl.
  - by left.
  - right. by exists c, t.
Qed.

Lemma header_follows_token_logout s :
  header_follows_token (AuthProvider.logout s).
Proof. by left. Qed.

Lemma header_follows_token_handle e s s' :
  header_follows_token s → answer_ok e = true →
  AuthProvider.handle e s = Some s' →
  header_follows_token s'.
Proof.
  intros Hs Hok. destruct e as [r|r| |r]; simpl.
  - intros [= <-]. destruct r as [[v u]|d]; [|done].
    apply session_token_string in Hok as (c & t & ->).
    right. by exists c, t.
  - intros [= <-]. destruct r as [[v u]|d]; [|done].
    apply session_token_string in Hok as (c & t & ->).
    right. by exists c, t.
  - intros [= <-]. apply header_follows_token_logout.
  - destruct (AuthProvider.pending s); [done|]. intros [= <-].
    destruct r; [exact Hs | apply header_follows_token_logout].
Qed.

Lemma header_follows_token_step e s s' :
  header_follows_token s → answer_ok e = true →
  AuthProvider.step e s = Some s' →
  header_follows_token s'.
Proof.
  intros Hs Hok. unfold AuthProvider.step.
  destruct (AuthProvider.handle e s) as [s1|] eqn:Hh; [|done]. simpl.
  intros [= <-].
  pose proof (header_follows_token_handle e s s1 Hs Hok Hh).
  case_decide; [done|]. by apply header_follows_token_tokenEffect.
Qed.

Lemma in_session_header_follows_token s :
  in_session s → header_follows_token s.
Proof.
  induction 1 as [stored Hst|e s s' _ IH Hok Hstep].
  - by apply header_follows_token_mount.
  - by eapply header_follows_token_step.
Qed.

Lemma logout_step s :
  ∃ s', AuthProvider.step AuthProvider.OnLogout s = Some s' ∧
        AuthProvider.logged_out s' ∧
        ∀ q, AuthProvider.send s' q = (q, None).
Proof.
  unfold AuthProvider.step. simpl. eexists. split; [reflexivity|].
  case_decide; unfold AuthProvider.logged_out, AuthProvider.send; simpl; done.
Qed.

(** Where the contract of the tokens is needed.  An answer whose
    [access_token] is [null] leaves the token [null] while ['null'] is
    stored and the header is ['Bearer null']; the empty string as
    [access_token] gives the header ['Bearer '] with a token that
    [if (token)] takes for none; mounted over a stored empty string the
    provider has a token that is not [null] and no header. *)
Example tokens_outside_the_contract :
  (AuthProvider.token (loginWith JNull) = JNull ∧
   AuthProvider.localStorage_token (loginWith JNull) = Some (lit "null") ∧
   AuthProvider.Authorization (loginWith JNull)
     = Some (lit "Bearer null")) ∧
  (AuthProvider.token (loginWith (JStr [])) = JStr [] ∧
   AuthProvider.Authorization (loginWith (JStr []))
     = Some (lit "Bearer ")) ∧
  (AuthProvider.token (AuthProvider.mount (Some [])) = JStr [] ∧
   AuthProvider.Authorization (AuthProvider.mount (Some [])) = None).
Proof. split_and!; reflexivity. Qed.

(** C7: in every state the provider reaches when the tokens it is given
    are session tokens (what is stored at mount is nothing or such a
    token, every login or registration that succeeds answers with one),
    the Authorization header is ['Bearer ' + token] exactly when there
    is a token and is absent exactly when the token is [null]; the token
    is [null] or a non-empty string, so "present" reads the same as
    not-null and as truthy, and what is stored is the token.  Logout
    leads to the logged-out state: nothing stored, user and token
    [null], the header deleted, and a request then leaves without an
    Authorization header. *)
Theorem authorization_header_follows_token (s : AuthProvider.state) :
  in_session s →
  ((∀ t, AuthProvider.token s = JStr t ↔
         AuthProvider.Authorization s = Some (AuthProvider.Bearer t)) ∧
   (AuthProvider.token s = JNull ↔ AuthProvider.Authorization s = None) ∧
   (AuthProvider.token s = JNull ∨
    session_token (AuthProvider.token s) = true) ∧
   header_iff_token_not_null s ∧ header_iff_token_truthy s ∧
   AuthProvider.getItem (AuthProvider.localStorage_token s)
     = AuthProvider.token s) ∧
  ∃ s', AuthProvider.step AuthProvider.OnLogout s = Some s' ∧
        AuthProvider.logged_out s' ∧
        (∀ q, AuthProvider.send s' q = (q, None)) ∧
        in_session s'.
Proof.
  intros Hr. split.
  - unfold header_iff_token_not_null, header_iff_token_truthy.
    destruct (in_session_header_follows_token s Hr)
      as [(Ht & Ha & Hs)|(c & t & Ht & Ha & Hs)];
      rewrite Ht, Ha, Hs; simpl; split_and!; try done.
    + by left.
    + intros t'. split; [by intros [= <-]|].
      by intros [= ->].
    + by right.
  - destruct (logout_step s) as (s' & Hstep & Hout & Hsend).
    exists s'. split_and!; try done.
    by apply (session_step AuthProvider.OnLogout s s' Hr).
Qed.

Lemma authorization_header_witness :
  in_session (loginWith (JStr (lit "abc"))) ∧
  AuthProvider.Authorization (loginWith (JStr (lit "abc")))
    = Some (lit "Bearer abc") ∧
  ∃ s', AuthProvider.step AuthProvider.OnLogout
          (loginWith (JStr (lit "abc"))) = Some s' ∧
        AuthProvider.logged_out s'.
Proof.
  assert (Hm : in_session (AuthProvider.mount None))
    by (apply session_mount; reflexivity).
  assert (Hr : in_session (loginWith (JStr (lit "abc")))).
  { apply (session_step
             (AuthProvider.OnLogin (Resolved (JStr (lit "abc"), someUser)))
             (AuthProvider.mount None)); [exact Hm|reflexivity..]. }
  split; [exact Hr|].
  destruct (authorization_header_follows_token _ Hr)
    as ((Hset & _) & s' & Hstep & Hout & _).
  split.
  - by apply (Hset (lit "abc")).
  - by exists s'.
Defined.

(** C8: when the call of [fetchUser] fails, whatever the error, the
    [catch] branch logs out: nothing is stored any more, user and token
    are null and the Authorization header is deleted; [finally] ends
    loading on failure and on success alike.  So a provider mounted over
    a stored token that the server does not resolve ends logged out and
    not loading, and a provider mounted without a token is logged out
    and not loading from the start; whatever is stored, loading has
    ended after the mount or ends when the call of [fetchUser] is
    settled. *)
Theorem fetchUser_failure_logs_out (s : AuthProvider.state) (detail : jsval) :
  (AuthProvider.logged_out (AuthProvider.fetchUser (Rejected detail) s) ∧
   AuthProvider.loading (AuthProvider.fetchUser (Rejected detail) s) = false) ∧
  (∀ d, AuthProvider.loading (AuthProvider.fetchUser (Resolved d) s) = false) ∧
  match AuthProvider.step
          (AuthProvider.OnFetchUserSettled (Rejected detail)) s with
  | Some s' =>
      AuthProvider.logged_out s' ∧ AuthProvider.loading s' = false ∧
      ∀ q, AuthProvider.send s' q = (q, None)
  | None => AuthProvider.pending s = 0
  end ∧
  (∀ c t, ∃ s',
      AuthProvider.loading (AuthProvider.mount (Some (c :: t))) = true ∧
      AuthProvider.step (AuthProvider.OnFetchUserSettled (Rejected detail))
        (AuthProvider.mount (Some (c :: t))) = Some s' ∧
      AuthProvider.logged_out s' ∧ AuthProvider.loading s' = false) ∧
  (AuthProvider.logged_out (AuthProvider.mount None) ∧
   AuthProvider.loading (AuthProvider.mount None) = false) ∧
  (∀ stored,
      AuthProvider.loading (AuthProvider.mount stored) = false ∨
      ∀ r, ∃ s',
        AuthProvider.step (AuthProvider.OnFetchUserSettled r)
          (AuthProvider.mount stored) = Some s' ∧
        AuthProvider.loading s' = false).
Proof.
  split_and!; try done.
  - unfold AuthProvider.step. simpl.
    destruct (AuthProvider.pending s); [done|]. simpl.
    case_decide; unfold AuthProvider.logged_out, AuthProvider.send; done.
  - intros c t. eexists. split; [reflexivity|].
    split; [reflexivity|]. done.
  - intros [[|c t]|]; [by left| |by left]. right.
    intros r. unfold AuthProvider.step. simpl. eexists. split; [done|].
    destruct r; simpl; try case_decide; done.
Qed.

(** ** Deleting a project *)

Lemma filter_keeps_all {A} (P : A → Prop) `{!∀ x, Decision (P x)}
    (l : list A) :
  Forall P l → filter P l = l.
Proof.
  induction 1 as [|x l Hx _ IH]; [done|].
  by rewrite filter_cons_True, IH.
Qed.

Lemma filter_drops_one {A} (P : A → Prop) `{!∀ x, Decision (P x)}
    (l1 l2 : list A) (x : A) :
  ¬ P x → Forall P (l1 ++ l2) → filter P (l1 ++ x :: l2) = l1 ++ l2.
Proof.
  intros Hx [H1 H2]%Forall_app.
  rewrite filter_app, filter_cons_False by done.
  f_equal; by apply filter_keeps_all.
Qed.



Lemma lookup_last_call {A} (l : list A) (x : A) :
  (l ++ [x]) !! length l = Some x ∧ delete (length l) (l ++ [x]) = l.
Proof.
  split; [apply list_lookup_middle; done|].
  rewrite delete_middle. apply app_nil_r.
Qed.





(** ** The creation form *)

Lemma createTask_body_assignee `{Env} (nt body : gmap string jsval) :
  ProjectDetail.createTask_body nt = Some body →
  body !! "assignee_id" = nt !! "assignee_id".
Proof.
  unfold ProjectDetail.createTask_body.
  destruct (ProjectDetail.due_date_of nt); [|done]. simpl.
  intros [= <-]. by rewrite lookup_insert_ne.
Qed.

Lemma handleCreateTask_request `{Env} (r : settled unit)
    (s : ProjectDetail.state) (body : gmap string jsval) :
  ProjectDetail.createTask_body (ProjectDetail.newTask s) = Some body →
  ∃ s' out,
    ProjectDetail.handleCreateTask r s = (s', Http (taskCreation s body) :: out).
Proof.
  intros Hb. unfold ProjectDetail.handleCreateTask. rewrite Hb.
  destruct r; eauto.
Qed.

Lemma step_assignee_chosen `{Env} (seen : ProjectDetail.state → Prop)
    (e : ProjectDetail.event) (s s' : ProjectDetail.state) out :
  ProjectDetail.step e s = Some (s', out) → seen s →
  assignee_chosen_on seen (ProjectDetail.newTask s) →
  assignee_chosen_on seen (ProjectDetail.newTask s').
Proof.
  unfold ProjectDetail.step.
  destruct (ProjectDetail.offered e s) eqn:Hoff; [|done].
  intros [= Hh] Hseen Hinv. unfold assignee_chosen_on in *.
  destruct e; simpl in Hh.
  - case_decide; by simplify_eq.
  - destruct r as [[[p ts] cs]|d]; simpl in Hh; by simplify_eq.
  - by simplify_eq.
  - by simplify_eq.
  - simplify_eq. simpl. by rewrite lookup_insert_ne.
  - simplify_eq. simpl. by rewrite lookup_insert_ne.
  - simplify_eq. simpl. rewrite lookup_insert_eq. right.
    exists s, v. split_and!; [done| |done].
    simpl in Hoff. apply andb_prop in Hoff as [_ Hv].
    by apply bool_decide_eq_true in Hv.
  - simplify_eq. simpl. by rewrite lookup_insert_ne.
  - simplify_eq. simpl. by rewrite lookup_insert_ne.
  - unfold ProjectDetail.handleCreateTask in Hh.
    destruct (ProjectDetail.createTask_body _); [|by simplify_eq].
    destruct r; simplify_eq; [by left | done].
  - destruct r; simpl in Hh; by simplify_eq.
  - by simplify_eq.
  - destruct r; simpl in Hh; by simplify_eq.
  - by simplify_eq.
  - by simplify_eq.
  - unfold ProjectDetail.handleAddComment in Hh.
    destruct (negb _); [by simplify_eq|].
    destruct r; simpl in Hh; by simplify_eq.
Qed.

Lemma run_assignee_chosen `{Env} (seen : ProjectDetail.state → Prop)
    (evs : list ProjectDetail.event) :
  ∀ s s' out,
    ProjectDetail.run evs s = Some (s', out) →
    (∀ x, x ∈ ProjectDetail.visited evs s → seen x) →
    assignee_chosen_on seen (ProjectDetail.newTask s) →
    assignee_chosen_on seen (ProjectDetail.newTask s').
Proof.
  induction evs as [|e evs IH]; intros s s' out; simpl.
  - by intros [= <- <-].
  - destruct (ProjectDetail.step e s) as [[s1 out1]|] eqn:Hstep; [|done].
    simpl. destruct (ProjectDetail.run evs s1) as [[s2 out2]|] eqn:Hrun;
      [|done].
    simpl. intros [= <- <-] Hseen Hinv.
    apply (IH s1 s2 out2 Hrun).
    + intros x Hx. apply Hseen. by apply list_elem_of_further.
    + eapply step_assignee_chosen; [done| |done].
      apply Hseen. apply list_elem_of_here.
Qed.

Lemma run_visited_last `{Env} (evs : list ProjectDetail.event) :
  ∀ s s' out,
    ProjectDetail.run evs s = Some (s', out) →
    s' ∈ ProjectDetail.visited evs s.
Proof.
  induction evs as [|e evs IH]; intros s s' out; simpl.
  - intros [= <- <-]. apply list_elem_of_here.
  - destruct (ProjectDetail.step e s) as [[s1 out1]|] eqn:Hstep; [|done].
    simpl. destruct (ProjectDetail.run evs s1) as [[s2 out2]|] eqn:Hrun;
      [|done].
    simpl. intros [= <- <-]. apply list_elem_of_further. by eapply IH.
Qed.

Lemma createTask_invalid_assignee (st : Server.store) (pid : Server.ident)
    (p : Server.project) (caller a : Server.uid) (ttl : jsstring)
    desc due st0 :
  Server.projects st !! pid = Some p →
  Server.is_member p caller = true → ttl ≠ [] →
  Server.is_member p a = false →
  Server.createTask pid caller ttl desc (Some a) due st0 st =
    (st, inl Server.InvalidAssignee).
Proof.
  intros Hp Hc Ht Ha. unfold Server.createTask. rewrite Hp. simpl.
  rewrite Hc. simpl. rewrite bool_decide_eq_false_2 by done.
  by rewrite Ha.
Qed.

(** C1: the client does submit an assignee from outside the member
    set of the project it submits to.  The form of the creation dialog
    outlives the project it was filled in for: the assignee chosen on
    the page of p1 is still in the form when the same page has gone on
    to p2, and the request then sent to p2's tasks names Ben, who is not
    among the members listed for p2.  So not every request submitted
    with an assignee names a member of the parent project. *)
Lemma stale_assignee_submitted :
  (∃ s out body,
      ProjectDetail.run (E := localEnv) staleAssignee
        (ProjectDetail.initial (lit "p1")) = Some (s, out) ∧
      ProjectDetail.offered
        (ProjectDetail.SubmitCreateTask (Resolved ())) s = true ∧
      ProjectDetail.projectId s = lit "p2" ∧
      ProjectDetail.project s = Some p2 ∧
      ProjectDetail.assigneeItems s = [lit "u1"] ∧
      ProjectDetail.createTask_body (E := localEnv)
        (ProjectDetail.newTask s) = Some body ∧
      body !! "assignee_id" = Some (JStr (lit "u2")) ∧
      (∃ s' out',
          ProjectDetail.handleCreateTask (E := localEnv) (Resolved ()) s =
            (s', Http (taskCreation (H := localEnv) s body) :: out') ∧
          r_url (taskCreation (H := localEnv) s body) =
            lit "http://localhost:8000/api/projects/p2/tasks")) ∧
  ¬ submits_members_only (H := localEnv).
Proof.
  assert (Hrun : ∃ s out body,
      ProjectDetail.run (E := localEnv) staleAssignee
        (ProjectDetail.initial (lit "p1")) = Some (s, out) ∧
      ProjectDetail.offered
        (ProjectDetail.SubmitCreateTask (Resolved ())) s = true ∧
      ProjectDetail.projectId s = lit "p2" ∧
      ProjectDetail.project s = Some p2 ∧
      ProjectDetail.assigneeItems s = [lit "u1"] ∧
      ProjectDetail.createTask_body (E := localEnv)
        (ProjectDetail.newTask s) = Some body ∧
      body !! "assignee_id" = Some (JStr (lit "u2"))).
  { do 3 eexists. split; [vm_compute; reflexivity|].
    split_and!; by vm_compute. }
  destruct Hrun as (s & out & body & Hrun & Hoff & Hpid & Hp & Hitems & Hb & Ha).
  split.
  - exists s, out, body. split_and!; try done.
    destruct (handleCreateTask_request (H := localEnv) (Resolved ()) s body Hb)
      as (s' & out' & Hreq).
    exists s', out'. split; [done|].
    unfold taskCreation, ProjectDetail.projectUrl. simpl. rewrite Hpid.
    by vm_compute.
  - intros Hclaim.
    specialize (Hclaim (lit "p1") staleAssignee s out (Resolved ()) body
                  (lit "u2") Hrun Hoff Hb Ha).
    rewrite Hitems in Hclaim.
    assert (Hin : lit "u2" ∈ [lit "u1"]) by (apply Hclaim; by vm_compute).
    apply list_elem_of_singleton in Hin. by vm_compute in Hin.
Qed.

Lemma updateTask_invalid_assignee (st : Server.store) (tid : Server.ident)
    (t : Server.task) (p : Server.project) (caller a : Server.uid)
    (pt : Server.patch) :
  Server.tasks st !! tid = Some t →
  Server.projects st !! Server.parent t = Some p →
  Server.is_member p caller = true →
  Server.pt_title pt ≠ Some [] →
  Server.pt_assignee pt = Some (Some a) →
  Server.is_member p a = false →
  Server.updateTask tid caller pt st = (st, inl Server.InvalidAssignee).
Proof.
  intros Ht Hp Hc Hti Hpa Ha. unfold Server.updateTask.
  rewrite Ht, Hp. simpl. rewrite Hc. simpl.
  rewrite bool_decide_eq_false_2 by done.
  rewrite Hpa. simpl. by rewrite Ha.
Qed.

(** What the selector does ensure.  The [assignee_id] of every creation
    request the client sends is the empty string (no assignee chosen) or
    the id of a member that the selector listed, from
    [project.member_details], in the state of the page in which it was
    chosen.  It is the id of a member listed on the page now whenever
    the members listed in the earlier states of the page are listed now
    as well, as they are when the page has shown one project and members
    were only added to it.  On the backend of the specification a
    creation and an update that name an assignee outside the project's
    members fail with InvalidAssignee and leave the store as it was. *)
Lemma assignee_was_offered `{Env} :
  (∀ pid evs s out body,
      ProjectDetail.run evs (ProjectDetail.initial pid) = Some (s, out) →
      ProjectDetail.createTask_body (ProjectDetail.newTask s) = Some body →
      (∀ r, ∃ s' out',
          ProjectDetail.handleCreateTask r s =
            (s', Http (taskCreation s body) :: out')) ∧
      assignee_chosen_on
        (λ s0, s0 ∈ ProjectDetail.visited evs (ProjectDetail.initial pid))
        body ∧
      ((∀ s0, s0 ∈ ProjectDetail.visited evs (ProjectDetail.initial pid) →
              ProjectDetail.assigneeItems s0 ⊆ ProjectDetail.assigneeItems s) →
       ∀ a, body !! "assignee_id" = Some (JStr a) → a ≠ [] →
            a ∈ ProjectDetail.assigneeItems s)) ∧
  (∀ st pid p caller a ttl desc due st0,
      Server.projects st !! pid = Some p →
      Server.is_member p caller = true → ttl ≠ [] →
      Server.is_member p a = false →
      Server.createTask pid caller ttl desc (Some a) due st0 st =
        (st, inl Server.InvalidAssignee)) ∧
  (∀ st tid t p caller a pt,
      Server.tasks st !! tid = Some t →
      Server.projects st !! Server.parent t = Some p →
      Server.is_member p caller = true →
      Server.pt_title pt ≠ Some [] →
      Server.pt_assignee pt = Some (Some a) →
      Server.is_member p a = false →
      Server.updateTask tid caller pt st = (st, inl Server.InvalidAssignee)).
Proof.
  split_and!; [|intros; by eapply createTask_invalid_assignee
               |intros; by eapply updateTask_invalid_assignee].
  intros pid evs s out body Hrun Hb.
  assert (Hinv : assignee_chosen_on
            (λ s0, s0 ∈ ProjectDetail.visited evs (ProjectDetail.initial pid))
            body).
  { unfold assignee_chosen_on.
    rewrite (createTask_body_assignee _ _ Hb).
    apply (run_assignee_chosen _ evs _ _ _ Hrun); [done|].
    by left. }
  split_and!.
  - intros r. by apply handleCreateTask_request.
  - exact Hinv.
  - intros Hgrow a Ha Hne.
    destruct Hinv as [Hempty|(s0 & a' & Hs0 & Ha' & Hbody)];
      [congruence|].
    assert (a' = a) as -> by congruence.
    by apply (Hgrow s0 Hs0).
Qed.

(** ** The default form *)

Lemma emptyTask_lookups :
  ProjectDetail.emptyTask !! "title" = Some (JStr []) ∧
  ProjectDetail.emptyTask !! "description" = Some (JStr []) ∧
  ProjectDetail.emptyTask !! "assignee_id" = Some (JStr []) ∧
  ProjectDetail.emptyTask !! "due_date" = Some (JStr []) ∧
  ProjectDetail.emptyTask !! "status" = Some (JStr (lit "To-Do")).
Proof. split_and!; reflexivity. Qed.

(** C3: the creation request of a form in which only the title was
    filled in.  Its body has the five keys of the form; the status is
    'To-Do' and the due date is [null], but the assignee is not [null]:
    [assignee_id] is the empty string of the initial form state, which
    [handleCreateTask] passes on as it is (only [due_date] is replaced
    by [null] when empty). *)
Theorem default_creation_request `{Env} (ttl : jsstring) :
  ∃ body,
    ProjectDetail.createTask_body (titledTask ttl) = Some body ∧
    (∀ r s, ProjectDetail.newTask s = titledTask ttl →
        ∃ s' out,
          ProjectDetail.handleCreateTask r s =
            (s', Http (taskCreation s body) :: out)) ∧
    dom body = {[ "title"; "description"; "assignee_id"; "due_date";
                  "status" ]} ∧
    body !! "title" = Some (JStr ttl) ∧
    body !! "description" = Some (JStr []) ∧
    body !! "status" = Some (JStr (lit "To-Do")) ∧
    body !! "due_date" = Some JNull ∧
    body !! "assignee_id" = Some (JStr []) ∧
    body !! "assignee_id" ≠ Some JNull.
Proof.
  destruct emptyTask_lookups as (_ & Hd & Ha & Hdue & Hst).
  assert (Hbody : ProjectDetail.createTask_body (titledTask ttl) =
            Some (<["due_date" := JNull]> (titledTask ttl))).
  { unfold ProjectDetail.createTask_body, ProjectDetail.due_date_of, get,
      titledTask.
    by rewrite lookup_insert_ne, Hdue by done. }
  eexists. split; [exact Hbody|]. unfold titledTask. split_and!.
  - intros r s Hs. apply handleCreateTask_request. by rewrite Hs.
  - rewrite !dom_insert_L. unfold ProjectDetail.emptyTask.
    rewrite !dom_insert_L, dom_empty_L. set_solver.
  - by rewrite lookup_insert_ne, lookup_insert_eq.
  - by rewrite !lookup_insert_ne.
  - by rewrite !lookup_insert_ne.
  - by rewrite lookup_insert_eq.
  - by rewrite !lookup_insert_ne.
  - rewrite !lookup_insert_ne, Ha by done. discriminate.
Qed.

Example default_creation_request_write_spec :
  ProjectDetail.createTask_body (E := localEnv) (titledTask (lit "Write spec"))
  = Some (<["title" := JStr (lit "Write spec")]>
          (<["description" := JStr []]>
          (<["assignee_id" := JStr []]>
          (<["due_date" := JNull]>
          (<["status" := JStr (lit "To-Do")]> ∅))))).
Proof. by vm_compute. Qed.

(* ===================================================================== *)
(** * Further properties of the client *)
(* ===================================================================== *)

(** ** Routing by the fragment of the address *)

Lemma replace_unfold (pat rep s : jsstring) :
  JsString.replace pat rep s =
    if JsString.startsWith s pat then rep ++ drop (length pat) s
    else match s with
         | [] => []
         | c :: s' => c :: JsString.replace pat rep s'
         end.
Proof. by destruct s. Qed.

Lemma startsWith_app (p x : jsstring) : JsString.startsWith (p ++ x) p = true.
Proof.
  induction p as [|a p IH]; simpl; [by destruct x|].
  by rewrite bool_decide_eq_true_2, IH.
Qed.

Lemma startsWith_true (s p : jsstring) :
  JsString.startsWith s p = true ↔ ∃ x, s = p ++ x.
Proof.
  split.
  - revert s. induction p as [|a p IH]; intros s; simpl.
    + intros _. by exists s.
    + destruct s as [|c s]; [done|].
      intros [Hc Hp]%andb_prop. apply bool_decide_eq_true in Hc as ->.
      destruct (IH s Hp) as [x ->]. by exists x.
  - intros [x ->]. apply startsWith_app.
Qed.

Lemma replace_prefix (pat rep x : jsstring) :
  JsString.replace pat rep (pat ++ x) = rep ++ x.
Proof. by rewrite replace_unfold, startsWith_app, drop_app_length. Qed.

Lemma split_nonempty (sep : N) (s : jsstring) :
  ∃ seg rest, JsString.split sep s = seg :: rest.
Proof.
  induction s as [|c s (seg & rest & IH)]; simpl; [by eauto|].
  case_bool_decide; [by eauto|]. rewrite IH. by eauto.
Qed.

Lemma split_separator (sep : N) (a b : jsstring) :
  sep ∉ a →
  JsString.split sep (a ++ sep :: b) = a :: JsString.split sep b.
Proof.
  induction a as [|c a IH]; simpl; intros Hsep.
  - by rewrite bool_decide_eq_true_2.
  - apply not_elem_of_cons in Hsep as [Hc Ha].
    rewrite bool_decide_eq_false_2 by done. by rewrite (IH Ha).
Qed.

Lemma split_no_separator (sep : N) (a : jsstring) :
  sep ∉ a → JsString.split sep a = [a].
Proof.
  induction a as [|c a IH]; simpl; intros Hsep; [done|].
  apply not_elem_of_cons in Hsep as [Hc Ha].
  rewrite bool_decide_eq_false_2 by done. by rewrite (IH Ha).
Qed.

Lemma firstSegment_no_slash (projectId : jsstring) :
  AppContent.slash ∉ projectId → firstSegment projectId = projectId.
Proof. intros Hs. unfold firstSegment. by rewrite split_no_separator. Qed.

Lemma firstSegment_cut (a b : jsstring) :
  AppContent.slash ∉ a → firstSegment (a ++ AppContent.slash :: b) = a.
Proof. intros Hs. unfold firstSegment. by rewrite split_separator. Qed.

Lemma projects_segment (x : jsstring) :
  JsString.at_index
    (JsString.split AppContent.slash (lit "projects/" ++ x)) 1
  = JStr (firstSegment x).
Proof.
  change (lit "projects/" ++ x)
    with (lit "projects" ++ AppContent.slash :: x).
  rewrite split_separator.
  - unfold firstSegment, JsString.at_index. simpl.
    by destruct (split_nonempty AppContent.slash x) as (seg & rest & ->).
  - by apply (bool_decide_unpack _).
Qed.

Lemma split_head_no_separator (sep : N) (s seg : jsstring) rest :
  JsString.split sep s = seg :: rest → sep ∉ seg.
Proof.
  revert seg rest. induction s as [|c s IH]; simpl; intros seg rest.
  - intros [= <- <-]. apply not_elem_of_nil.
  - case_bool_decide as Hc.
    + intros [= <- <-]. apply not_elem_of_nil.
    + destruct (split_nonempty sep s) as (seg' & rest' & Hs). rewrite Hs.
      intros [= <- <-]. apply not_elem_of_cons. split; [done|].
      by eapply IH.
Qed.

Lemma firstSegment_no_separator (projectId : jsstring) :
  AppContent.slash ∉ firstSegment projectId.
Proof.
  unfold firstSegment.
  destruct (split_nonempty AppContent.slash projectId) as (seg & rest & Hs).
  rewrite Hs. simpl. by eapply split_head_no_separator.
Qed.

Lemma handleHashChange_project (s : AppContent.state) (x : jsstring) :
  AppContent.location_hash s = lit "#/projects/" ++ x →
  AppContent.handleHashChange s =
    {| AppContent.activeView := lit "project-detail";
       AppContent.selectedProjectId := JStr (firstSegment x);
       AppContent.location_hash := AppContent.location_hash s |}.
Proof.
  intros Hh. unfold AppContent.handleHashChange. rewrite Hh.
  change (lit "#/projects/" ++ x) with (lit "#/" ++ (lit "projects/" ++ x)).
  rewrite replace_prefix, (app_nil_l (lit "projects/" ++ x)).
  by rewrite startsWith_app, projects_segment.
Qed.

Lemma handleHashChange_other (s : AppContent.state) :
  (AppContent.location_hash s = [] ∨
   ∃ f, AppContent.location_hash s = numberSign :: f) →
  JsString.startsWith (AppContent.location_hash s) (lit "#/projects/") = false →
  AppContent.location_hash s ≠ lit "#/tasks" →
  AppContent.handleHashChange s =
    {| AppContent.activeView := lit "projects";
       AppContent.selectedProjectId := AppContent.selectedProjectId s;
       AppContent.location_hash := AppContent.location_hash s |}.
Proof.
  intros Hshape Hnp Hnt. unfold AppContent.handleHashChange.
  destruct Hshape as [Hh|[f Hh]]; rewrite Hh in *; [done|].
  rewrite replace_unfold.
  destruct f as [|c rest]; [done|].
  destruct (decide (c = AppContent.slash)) as [->|Hc].
  - change (numberSign :: AppContent.slash :: rest) with (lit "#/" ++ rest).
    rewrite startsWith_app, drop_app_length, app_nil_l.
    assert (Hrest : JsString.startsWith rest (lit "projects/") = false)
      by exact Hnp.
    rewrite Hrest. case_bool_decide as Ht; [|reflexivity].
    subst rest. by destruct Hnt.
  - assert (Hsw : JsString.startsWith (numberSign :: c :: rest) (lit "#/")
                  = false).
    { simpl. by rewrite (bool_decide_eq_false_2 (c = 47%N)). }
    rewrite Hsw.
    assert (Hp : JsString.startsWith
                   (numberSign :: JsString.replace (lit "#/") [] (c :: rest))
                   (lit "projects/") = false) by done.
    rewrite Hp. by rewrite bool_decide_eq_false_2.
Qed.

(** X1: the listener of AppContent reads the fragment as the browser
    reports it (empty, or beginning with the number sign).  A fragment
    '#/projects/<id>' opens the detail view of <id>, where a second
    slash ends the id; '#/tasks' opens the list of the user's tasks and
    keeps the selected project; any other fragment opens the dashboard
    and keeps the selected project. *)
Theorem handleHashChange_routes (s : AppContent.state) :
  (AppContent.location_hash s = [] ∨
   ∃ f, AppContent.location_hash s = numberSign :: f) →
  (∀ x, AppContent.location_hash s = lit "#/projects/" ++ x →
        AppContent.handleHashChange s =
          {| AppContent.activeView := lit "project-detail";
             AppContent.selectedProjectId := JStr (firstSegment x);
             AppContent.location_hash := AppContent.location_hash s |} ∧
        (AppContent.slash ∉ firstSegment x) ∧
        (AppContent.slash ∉ x → firstSegment x = x) ∧
        (∀ a b, AppContent.slash ∉ a → x = a ++ AppContent.slash :: b →
                firstSegment x = a)) ∧
  (AppContent.location_hash s = lit "#/tasks" →
     AppContent.handleHashChange s =
       {| AppContent.activeView := lit "tasks";
          AppContent.selectedProjectId := AppContent.selectedProjectId s;
          AppContent.location_hash := AppContent.location_hash s |}) ∧
  (JsString.startsWith (AppContent.location_hash s) (lit "#/projects/")
     = false →
   AppContent.location_hash s ≠ lit "#/tasks" →
   AppContent.handleHashChange s =
     {| AppContent.activeView := lit "projects";
        AppContent.selectedProjectId := AppContent.selectedProjectId s;
        AppContent.location_hash := AppContent.location_hash s |}).
Proof.
  intros Hshape. split_and!.
  - intros x Hx. split_and!.
    + by apply handleHashChange_project.
    + apply firstSegment_no_separator.
    + apply firstSegment_no_slash.
    + intros a b Ha ->. by apply firstSegment_cut.
  - intros Hh. unfold AppContent.handleHashChange. by rewrite Hh.
  - by apply handleHashChange_other.
Qed.

Lemma handleHashChange_routes_witness :
  (∃ f, lit "#/projects/p1/board" = numberSign :: f) ∧
  lit "#/projects/p1/board" = lit "#/projects/" ++ lit "p1/board" ∧
  AppContent.handleHashChange (AppContent.initial (lit "#/projects/p1/board"))
  = {| AppContent.activeView := lit "project-detail";
       AppContent.selectedProjectId := JStr (lit "p1");
       AppContent.location_hash := lit "#/projects/p1/board" |}.
Proof.
  assert (Hshape : ∃ f, lit "#/projects/p1/board" = numberSign :: f)
    by (by eexists).
  assert (Hx : lit "#/projects/p1/board" = lit "#/projects/" ++ lit "p1/board")
    by reflexivity.
  split; [done|]. split; [done|].
  destruct (handleHashChange_routes
              (AppContent.initial (lit "#/projects/p1/board")) (or_intror Hshape))
    as (Hproj & _ & _).
  destruct (Hproj (lit "p1/board") Hx) as (Heq & _ & _ & Hcut).
  rewrite Heq.
  assert (Hno : AppContent.slash ∉ lit "p1")
    by (apply (bool_decide_unpack _); by vm_compute).
  by rewrite (Hcut (lit "p1") (lit "board") Hno eq_refl).
Defined.

Lemma tab_or_newline_encoded (c : N) :
  Location.tab_or_newline c = true → Location.encoded c = true.
Proof.
  unfold Location.tab_or_newline. intros Hc%bool_decide_eq_true.
  rewrite !elem_of_cons, elem_of_nil in Hc.
  destruct Hc as [->|[->|[->|[]]]]; reflexivity.
Qed.

Lemma fragment_kept (c : N) (rest : jsstring) :
  Location.encoded c = false →
  Location.fragment (c :: rest) = c :: Location.fragment rest.
Proof.
  intros Hc. cbn [Location.fragment].
  destruct (Location.tab_or_newline c) eqn:Ht.
  - apply tab_or_newline_encoded in Ht. congruence.
  - by rewrite Hc.
Qed.

Lemma fragment_verbatim_app (a b : jsstring) :
  Location.verbatim a = true →
  Location.fragment (a ++ b) = a ++ Location.fragment b.
Proof.
  unfold Location.verbatim. induction a as [|c a IH]; [done|].
  cbn [forallb]. intros [Hc Ha]%andb_prop.
  apply negb_true_iff in Hc.
  rewrite <- app_comm_cons, fragment_kept by done. by rewrite IH.
Qed.

Lemma fragment_verbatim (a : jsstring) :
  Location.verbatim a = true → Location.fragment a = a.
Proof.
  intros Ha. rewrite <- (app_nil_r a) at 1.
  rewrite fragment_verbatim_app by done. apply app_nil_r.
Qed.

Lemma assign_projects (projectId : jsstring) :
  Location.assign (lit "#/projects/" ++ projectId) =
    lit "#/projects/" ++ Location.fragment projectId.
Proof.
  unfold Location.assign.
  change (lit "#/projects/" ++ projectId)
    with (Location.hashMark :: (lit "/projects/" ++ projectId)).
  cbv beta iota. rewrite bool_decide_eq_true_2 by done.
  by rewrite (fragment_verbatim_app (lit "/projects/")).
Qed.

(** X2: choosing a project assigns '#/projects/<id>' to the fragment,
    which the browser keeps percent-encoded, and the listener that then
    runs reads the id back from it up to the first slash: the selected
    project becomes the first segment of the encoded id.  For an id of
    code units the encoding keeps (printable ASCII but the quotation
    mark, the angle brackets and the grave accent) the fragment is the
    text assigned; the listener then confirms the state the handler set
    if the id has no slash, and replaces the selected project by a
    proper prefix of the id if it has one.  Going back to the dashboard
    empties the fragment, and the listener confirms that state as
    well. *)
Theorem handleProjectSelect_round_trip (projectId : jsstring)
    (s : AppContent.state) :
  AppContent.handleHashChange (AppContent.handleProjectSelect projectId s) =
    {| AppContent.activeView := lit "project-detail";
       AppContent.selectedProjectId :=
         JStr (firstSegment (Location.fragment projectId));
       AppContent.location_hash :=
         lit "#/projects/" ++ Location.fragment projectId |} ∧
  (Location.verbatim projectId = true →
   AppContent.location_hash (AppContent.handleProjectSelect projectId s) =
     lit "#/projects/" ++ projectId ∧
   (AppContent.slash ∉ projectId →
    AppContent.handleHashChange
      (AppContent.handleProjectSelect projectId s) =
      AppContent.handleProjectSelect projectId s) ∧
   (AppContent.slash ∈ projectId →
    AppContent.selectedProjectId
      (AppContent.handleHashChange
         (AppContent.handleProjectSelect projectId s))
    ≠ JStr projectId)) ∧
  AppContent.handleHashChange (AppContent.handleBackToProjects s) =
    AppContent.handleBackToProjects s.
Proof.
  assert (Hh : AppContent.location_hash
                 (AppContent.handleProjectSelect projectId s) =
               lit "#/projects/" ++ Location.fragment projectId)
    by apply assign_projects.
  assert (Heq : AppContent.handleHashChange
                  (AppContent.handleProjectSelect projectId s) =
    {| AppContent.activeView := lit "project-detail";
       AppContent.selectedProjectId :=
         JStr (firstSegment (Location.fragment projectId));
       AppContent.location_hash :=
         lit "#/projects/" ++ Location.fragment projectId |}).
  { rewrite (handleHashChange_project _ _ Hh). by rewrite Hh. }
  split_and!.
  - exact Heq.
  - intros Hv. pose proof (fragment_verbatim projectId Hv) as Hf.
    split_and!.
    + by rewrite Hh, Hf.
    + intros Hs. rewrite Heq, Hf, firstSegment_no_slash by done.
      unfold AppContent.handleProjectSelect. by rewrite assign_projects, Hf.
    + intros Hs. rewrite Heq, Hf. simpl. intros [= Hfs].
      pose proof (firstSegment_no_separator projectId) as Hno.
      by rewrite Hfs in Hno.
  - reflexivity.
Qed.

Lemma handleProjectSelect_round_trip_witness :
  (Location.verbatim (lit "p1") = true ∧ (AppContent.slash ∉ lit "p1") ∧
   Location.verbatim (lit "a/b") = true ∧ AppContent.slash ∈ lit "a/b") ∧
  AppContent.handleHashChange
    (AppContent.handleProjectSelect (lit "p1") (AppContent.initial [])) =
  AppContent.handleProjectSelect (lit "p1") (AppContent.initial []) ∧
  AppContent.selectedProjectId
    (AppContent.handleHashChange
       (AppContent.handleProjectSelect (lit "a/b") (AppContent.initial [])))
  ≠ JStr (lit "a/b") ∧
  AppContent.selectedProjectId
    (AppContent.handleHashChange
       (AppContent.handleProjectSelect (lit "a b") (AppContent.initial [])))
  = JStr (lit "a%20b").
Proof.
  assert (V1 : Location.verbatim (lit "p1") = true) by reflexivity.
  assert (H1 : AppContent.slash ∉ lit "p1")
    by (apply (bool_decide_unpack _); by vm_compute).
  assert (V2 : Location.verbatim (lit "a/b") = true) by reflexivity.
  assert (H2 : AppContent.slash ∈ lit "a/b")
    by (apply (bool_decide_unpack _); by vm_compute).
  split; [done|].
  split_and!.
  - exact (proj1 (proj2 (proj1 (proj2
             (handleProjectSelect_round_trip (lit "p1")
                (AppContent.initial []))) V1)) H1).
  - exact (proj2 (proj2 (proj1 (proj2
             (handleProjectSelect_round_trip (lit "a/b")
                (AppContent.initial []))) V2)) H2).
  - rewrite (proj1 (handleProjectSelect_round_trip (lit "a b")
                      (AppContent.initial []))).
    reflexivity.
Defined.

(** Membership in a list written out. *)
Ltac member :=
  repeat first [apply list_elem_of_here | apply list_elem_of_further].

Lemma view_ok_handleHashChange (s : AppContent.state) :
  view_ok s → view_ok (AppContent.handleHashChange s).
Proof.
  intros [Hv Hid]. unfold AppContent.handleHashChange.
  destruct (JsString.startsWith _ (lit "projects/")) eqn:Hp.
  - apply startsWith_true in Hp as [x Hx]. rewrite Hx, projects_segment.
    split; simpl; [member|by eauto].
  - case_bool_decide; (split; simpl; [member|]);
      intros Hd; by vm_compute in Hd.
Qed.

Lemma view_ok_step (e : AppContent.event) (s s' : AppContent.state) :
  view_ok s → AppContent.step e s = Some s' → view_ok s'.
Proof.
  intros Hs. destruct e as [h| |pid| |item]; simpl.
  - intros [= <-]. apply view_ok_handleHashChange.
    destruct Hs as [Hv Hid]. by split.
  - intros [= <-]. by apply view_ok_handleHashChange.
  - intros [= <-]. split; simpl; [member|by eauto].
  - intros [= <-]. split; simpl; [member|].
    intros Hd. by vm_compute in Hd.
  - case_bool_decide as Hitem; [|done]. intros [= <-].
    unfold AppContent.sidebarItems in Hitem.
    rewrite !elem_of_cons, elem_of_nil in Hitem.
    destruct Hitem as [->|[->|[]]]; (split; simpl; [member|]);
      intros Hd; by vm_compute in Hd.
Qed.

Lemma reachable_view_ok (s : AppContent.state) :
  AppContent.reachable s → view_ok s.
Proof.
  induction 1 as [hash|e s s' _ IH Hstep].
  - apply view_ok_handleHashChange. split; simpl; [member|].
    intros Hd. by vm_compute in Hd.
  - by eapply view_ok_step.
Qed.

(** X3: in every state AppContent reaches, the view is one of
    'projects', 'tasks' and 'project-detail', and the detail view has a
    string as its project.  Without a resolved user nothing but the
    spinner or the login form is on screen.  With a user, the main area
    shows the dashboard, the tasks or the detail page of a non-empty
    project id, and it is empty exactly when the detail view was opened
    with the empty id (the fragment '#/projects/'). *)
Theorem appContent_views (s : AppContent.state) :
  AppContent.reachable s →
  view_ok s ∧
  ∀ auth,
    (AuthProvider.user auth = None →
     AppContent.render auth s = AppContent.Spinner ∨
     AppContent.render auth s = AppContent.ShowLogin) ∧
    (AuthProvider.loading auth = false → is_Some (AuthProvider.user auth) →
     ∃ m, AppContent.render auth s = AppContent.Shell m ∧
       (m = AppContent.ShowProjectDashboard ↔
        AppContent.activeView s = lit "projects") ∧
       (m = AppContent.ShowMyTasks ↔ AppContent.activeView s = lit "tasks") ∧
       (m = AppContent.ShowNothing ↔
        AppContent.activeView s = lit "project-detail" ∧
        AppContent.selectedProjectId s = JStr []) ∧
       (∀ projectId, m = AppContent.ShowProjectDetail projectId →
          AppContent.activeView s = lit "project-detail" ∧
          AppContent.selectedProjectId s = projectId ∧
          ∃ c t, projectId = JStr (c :: t))).
Proof.
  intros Hr. pose proof (reachable_view_ok s Hr) as Hok.
  split; [exact Hok|]. intros auth. split.
  - intros Hu. unfold AppContent.render. rewrite Hu.
    destruct (AuthProvider.loading auth); auto.
  - intros Hl [u Hu]. unfold AppContent.render. rewrite Hl, Hu.
    rewrite (bool_decide_eq_true_2 (is_Some (Some u))) by eauto.
    cbn [negb]. destruct Hok as [Hv Hid].
    rewrite !elem_of_cons, elem_of_nil in Hv.
    destruct Hv as [Hv|[Hv|[Hv|[]]]]; rewrite Hv in *.
    + exists AppContent.ShowProjectDashboard. split; [reflexivity|].
      split_and!; try done; try by split; [|intros Hd; vm_compute in Hd].
      * split; [done|]. intros [Hd _]. by vm_compute in Hd.
    + exists AppContent.ShowMyTasks. split; [reflexivity|].
      split_and!; try done; try by split; [|intros Hd; vm_compute in Hd].
      * split; [done|]. intros [Hd _]. by vm_compute in Hd.
    + destruct (Hid eq_refl) as [[|c t] Hsel]; rewrite Hsel.
      * exists AppContent.ShowNothing. split; [reflexivity|].
        split_and!; try done; try by split; [|intros Hd; vm_compute in Hd].
      * exists (AppContent.ShowProjectDetail (JStr (c :: t))).
        split; [reflexivity|].
        split_and!; try done; try by split; [|intros Hd; vm_compute in Hd].
        -- split; [done|]. by intros [_ [=]].
        -- intros pid [= <-]. eauto.
Qed.

Lemma appContent_views_witness :
  AppContent.reachable (AppContent.mount (lit "#/projects/")) ∧
  AppContent.render (loggedIn someUser) (AppContent.mount (lit "#/projects/"))
  = AppContent.Shell AppContent.ShowNothing.
Proof.
  assert (Hr : AppContent.reachable (AppContent.mount (lit "#/projects/")))
    by constructor.
  split; [exact Hr|].
  destruct (appContent_views _ Hr) as [_ Hviews].
  destruct (Hviews (loggedIn someUser)) as [_ Hshell].
  destruct (Hshell eq_refl (ex_intro _ someUser eq_refl))
    as (m & Hm & _ & _ & Hnothing & _).
  rewrite Hm. f_equal. apply Hnothing. by split.
Defined.

(** ** The due date of a task card *)

Lemma ceilDiv_day_cases (a : Z) :
  let d := TaskCardView.ceilDiv a TaskCardView.msPerDay in
  ((a ≤ - TaskCardView.msPerDay →
    d < 0 ∧ Z.abs d = (- a) / TaskCardView.msPerDay ∧ 1 ≤ Z.abs d) ∧
   (- TaskCardView.msPerDay < a ≤ 0 → d = 0) ∧
   (0 < a ≤ TaskCardView.msPerDay → d = 1) ∧
   (TaskCardView.msPerDay < a ≤ 7 * TaskCardView.msPerDay → 2 ≤ d ≤ 7) ∧
   (7 * TaskCardView.msPerDay < a → 8 ≤ d))%Z.
Proof.
  unfold TaskCardView.ceilDiv, TaskCardView.msPerDay. simpl.
  split_and!; intros Ha; Z.to_euclidean_division_equations; lia.
Qed.

(** X4: the label of a due date depends on the time left, [date - now],
    counted in days rounded up.  A date a full day or more in the past is
    'N days overdue' with N the whole days passed; one less than a day in
    the past, or now, is 'Due today'; one at most a day ahead is 'Due
    tomorrow'; one more than a day and at most seven days ahead is 'Due
    in N days' with N from 2 to 7; a later one shows the local date.
    No label is made for a missing or empty due date, and a text that is
    no date gets the local-date label of the invalid date. *)
Theorem formatDueDate_intervals `{DateHost} (now : Z) :
  (∀ v, truthy v = false → TaskCardView.formatDueDate now v = None) ∧
  (∀ c s, Date_parse (c :: s) = None →
     TaskCardView.formatDueDate now (JStr (c :: s)) =
       Some {| TaskCardView.text := toLocaleDateString None;
               TaskCardView.color := lit "text-gray-600";
               TaskCardView.bgColor := lit "bg-gray-50" |}) ∧
  (∀ c s date, Date_parse (c :: s) = Some date →
     let left := (date - now)%Z in
     let shown := TaskCardView.formatDueDate now (JStr (c :: s)) in
     ((left ≤ - TaskCardView.msPerDay)%Z →
        shown =
          Some {| TaskCardView.text :=
                    TaskCardView.digits ((- left) / TaskCardView.msPerDay)
                    ++ lit " days overdue";
                  TaskCardView.color := lit "text-red-600";
                  TaskCardView.bgColor := lit "bg-red-50" |} ∧
        (1 ≤ (- left) / TaskCardView.msPerDay)%Z) ∧
     ((- TaskCardView.msPerDay < left ≤ 0)%Z →
        shown =
          Some {| TaskCardView.text := lit "Due today";
                  TaskCardView.color := lit "text-orange-600";
                  TaskCardView.bgColor := lit "bg-orange-50" |}) ∧
     ((0 < left ≤ TaskCardView.msPerDay)%Z →
        shown =
          Some {| TaskCardView.text := lit "Due tomorrow";
                  TaskCardView.color := lit "text-yellow-600";
                  TaskCardView.bgColor := lit "bg-yellow-50" |}) ∧
     ((TaskCardView.msPerDay < left ≤ 7 * TaskCardView.msPerDay)%Z →
        ∃ n, (2 ≤ n ≤ 7)%Z ∧
          n = TaskCardView.ceilDiv left TaskCardView.msPerDay ∧
          shown =
            Some {| TaskCardView.text :=
                      lit "Due in " ++ TaskCardView.digits n ++ lit " days";
                    TaskCardView.color := lit "text-blue-600";
                    TaskCardView.bgColor := lit "bg-blue-50" |}) ∧
     ((7 * TaskCardView.msPerDay < left)%Z →
        shown =
          Some {| TaskCardView.text := toLocaleDateString (Some date);
                  TaskCardView.color := lit "text-gray-600";
                  TaskCardView.bgColor := lit "bg-gray-50" |})).
Proof.
  split_and!.
  - intros v Hv. unfold TaskCardView.formatDueDate. by rewrite Hv.
  - intros c s Hp. unfold TaskCardView.formatDueDate. simpl. by rewrite Hp.
  - intros c s date Hp left shown.
    destruct (ceilDiv_day_cases left) as (Hover & Htoday & Htom & Hweek & Hlate).
    subst shown. unfold TaskCardView.formatDueDate. simpl. rewrite Hp.
    fold left. set (d := TaskCardView.ceilDiv left TaskCardView.msPerDay) in *.
    split_and!; intros Hleft.
    + destruct (Hover Hleft) as (Hneg & Habs & Hone).
      rewrite (proj2 (Z.ltb_lt d 0)) by done. rewrite Habs. split; [done|].
      by rewrite <- Habs.
    + rewrite (Htoday Hleft). reflexivity.
    + rewrite (Htom Hleft). reflexivity.
    + specialize (Hweek Hleft). exists d. split; [done|]. split; [done|].
      rewrite (proj2 (Z.ltb_ge d 0)) by lia.
      rewrite (proj2 (Z.eqb_neq d 0)) by lia.
      rewrite (proj2 (Z.eqb_neq d 1)) by lia.
      by rewrite (proj2 (Z.leb_le d 7)) by lia.
    + specialize (Hlate Hleft).
      rewrite (proj2 (Z.ltb_ge d 0)) by lia.
      rewrite (proj2 (Z.eqb_neq d 0)) by lia.
      rewrite (proj2 (Z.eqb_neq d 1)) by lia.
      by rewrite (proj2 (Z.leb_gt d 7)) by lia.
Qed.

Lemma formatDueDate_intervals_witness :
  (truthy (JStr []) = false ∧
   Date_parse (DateHost := numeralHost) (lit "oops") = None ∧
   Date_parse (DateHost := numeralHost) (lit "60000") = Some 60000%Z ∧
   (0 < 60000 - 0 ≤ TaskCardView.msPerDay)%Z ∧
   Date_parse (DateHost := numeralHost) (lit "90000000") = Some 90000000%Z ∧
   (90000000 - 262800000 ≤ - TaskCardView.msPerDay)%Z) ∧
  TaskCardView.formatDueDate (H := numeralHost) 0 (JStr []) = None ∧
  TaskCardView.text <$>
    TaskCardView.formatDueDate (H := numeralHost) 0 (JStr (lit "oops"))
    = Some (lit "Invalid Date") ∧
  TaskCardView.text <$>
    TaskCardView.formatDueDate (H := numeralHost) 0 (JStr (lit "60000"))
    = Some (lit "Due tomorrow") ∧
  TaskCardView.text <$>
    TaskCardView.formatDueDate (H := numeralHost) 262800000
      (JStr (lit "90000000"))
    = Some (lit "2 days overdue").
Proof.
  assert (H1 : truthy (JStr []) = false) by reflexivity.
  assert (H2 : Date_parse (DateHost := numeralHost) (lit "oops") = None)
    by reflexivity.
  assert (H3 : Date_parse (DateHost := numeralHost) (lit "60000")
               = Some 60000%Z) by reflexivity.
  assert (H4 : (0 < 60000 - 0 ≤ TaskCardView.msPerDay)%Z)
    by (unfold TaskCardView.msPerDay; lia).
  assert (H5 : Date_parse (DateHost := numeralHost) (lit "90000000")
               = Some 90000000%Z) by reflexivity.
  assert (H6 : (90000000 - 262800000 ≤ - TaskCardView.msPerDay)%Z)
    by (unfold TaskCardView.msPerDay; lia).
  split; [done|].
  destruct (formatDueDate_intervals (H := numeralHost) 0)
    as (Hnone & Hbad & Hgood).
  destruct (formatDueDate_intervals (H := numeralHost) 262800000)
    as (_ & _ & Hgood').
  split; [exact (Hnone (JStr []) H1)|].
  split; [exact (f_equal (fmap TaskCardView.text) (Hbad _ _ H2))|].
  split.
  - destruct (Hgood _ _ _ H3) as (_ & _ & Htom & _).
    exact (f_equal (fmap TaskCardView.text) (Htom H4)).
  - destruct (Hgood' _ _ _ H5) as (Hover & _).
    destruct (Hover H6) as [Heq _].
    exact (f_equal (fmap TaskCardView.text) Heq).
Defined.

(** ** The session, continued *)

Lemma loading_has_call_step e s s' :
  loading_has_call s → AuthProvider.step e s = Some s' → loading_has_call s'.
Proof.
  unfold loading_has_call, AuthProvider.step. intros Hs.
  destruct (AuthProvider.handle e s) as [s1|] eqn:Hh; [|done]. simpl.
  intros [= <-].
  assert (Hs1 : AuthProvider.loading s1 = true →
                ∃ n, AuthProvider.pending s1 = S n).
  { destruct e as [r|r| |r]; simpl in Hh.
    - injection Hh as <-. destruct r as [[tok u]|d]; simpl; auto.
    - injection Hh as <-. destruct r as [[tok u]|d]; simpl; auto.
    - injection Hh as <-. simpl. auto.
    - destruct (AuthProvider.pending s); [done|]. injection Hh as <-.
      by destruct r. }
  case_decide; [done|]. unfold AuthProvider.tokenEffect.
  destruct (truthy (AuthProvider.token s1)); simpl; try done.
  intros _. by eexists.
Qed.

Lemma loading_stays_off e s s' :
  AuthProvider.step e s = Some s' →
  AuthProvider.loading s = false → AuthProvider.loading s' = false.
Proof.
  unfold AuthProvider.step.
  destruct (AuthProvider.handle e s) as [s1|] eqn:Hh; [|done]. simpl.
  intros [= <-] Hoff.
  assert (Hs1 : AuthProvider.loading s1 = false).
  { destruct e as [r|r| |r]; simpl in Hh.
    - injection Hh as <-. by destruct r as [[tok u]|d].
    - injection Hh as <-. by destruct r as [[tok u]|d].
    - by injection Hh as <-.
    - destruct (AuthProvider.pending s); [done|]. injection Hh as <-.
      by destruct r. }
  case_decide; [done|]. unfold AuthProvider.tokenEffect.
  by destruct (truthy (AuthProvider.token s1)).
Qed.

Lemma reachable_loading_has_call s :
  AuthProvider.reachable s → loading_has_call s.
Proof.
  induction 1 as [stored|e s s' _ IH Hstep].
  - unfold loading_has_call, AuthProvider.mount, AuthProvider.tokenEffect.
    destruct stored as [[|c t]|]; simpl; try done. intros _. by eexists.
  - by eapply loading_has_call_step.
Qed.

(** X5: the spinner of the session cannot get stuck and does not come
    back.  In every state the provider reaches, [loading] being true
    means that a call of /auth/me is in flight, and the outcome of that
    call, success or failure, ends loading; once loading has ended no
    login, registration, logout or late response starts it again. *)
Theorem session_loading_ends (s : AuthProvider.state) :
  AuthProvider.reachable s →
  (AuthProvider.loading s = true →
   ∀ r, ∃ s',
     AuthProvider.step (AuthProvider.OnFetchUserSettled r) s = Some s' ∧
     AuthProvider.loading s' = false) ∧
  (AuthProvider.loading s = false →
   ∀ e s', AuthProvider.step e s = Some s' →
           AuthProvider.loading s' = false).
Proof.
  intros Hr. split.
  - intros Hl r.
    destruct (reachable_loading_has_call s Hr Hl) as [n Hn].
    unfold AuthProvider.step. simpl. rewrite Hn. simpl.
    eexists. split; [reflexivity|].
    case_decide; [by destruct r|].
    unfold AuthProvider.tokenEffect.
    by destruct r; simpl; destruct (truthy (AuthProvider.token s)).
  - intros Hoff e s' Hstep. by eapply loading_stays_off.
Qed.

Lemma session_loading_ends_witness :
  (AuthProvider.reachable (AuthProvider.mount (Some (lit "abc"))) ∧
   AuthProvider.loading (AuthProvider.mount (Some (lit "abc"))) = true) ∧
  ∃ s',
    AuthProvider.step
      (AuthProvider.OnFetchUserSettled (Resolved someUser))
      (AuthProvider.mount (Some (lit "abc"))) = Some s' ∧
    AuthProvider.loading s' = false.
Proof.
  assert (Hr : AuthProvider.reachable (AuthProvider.mount (Some (lit "abc"))))
    by constructor.
  assert (Hl : AuthProvider.loading (AuthProvider.mount (Some (lit "abc")))
               = true) by reflexivity.
  split; [done|].
  exact (proj1 (session_loading_ends _ Hr) Hl (Resolved someUser)).
Defined.

(** X6: logout does not cancel a call of /auth/me that is in flight.
    When the answer of such a call arrives after the logout, [setUser]
    runs all the same: the user is set again while the token, the stored
    token and the Authorization header stay cleared, so AppContent shows
    the application instead of the login form and its requests leave
    without credentials. *)
Theorem logout_keeps_pending_fetchUser (s : AuthProvider.state)
    (d : AuthProvider.user_data) (n : nat) :
  AuthProvider.pending s = S n →
  ∃ s1 s2,
    AuthProvider.step AuthProvider.OnLogout s = Some s1 ∧
    AuthProvider.logged_out s1 ∧
    AuthProvider.step (AuthProvider.OnFetchUserSettled (Resolved d)) s1
      = Some s2 ∧
    AuthProvider.user s2 = Some d ∧
    AuthProvider.token s2 = JNull ∧
    AuthProvider.localStorage_token s2 = None ∧
    AuthProvider.Authorization s2 = None ∧
    AuthProvider.loading s2 = false ∧
    (∀ q, AuthProvider.send s2 q = (q, None)) ∧
    (∀ app, ∃ m, AppContent.render s2 app = AppContent.Shell m).
Proof.
  intros Hn. unfold AuthProvider.step. simpl.
  case_decide as Ht.
  - eexists. eexists. split; [reflexivity|]. simpl. split; [done|].
    rewrite Hn. simpl. split; [reflexivity|]. split_and!; try done.
    intros app. unfold AppContent.render. simpl. by eexists.
  - eexists. eexists. split; [reflexivity|].
    unfold AuthProvider.tokenEffect. simpl. split; [done|].
    rewrite Hn. simpl. split; [reflexivity|]. split_and!; try done.
    intros app. unfold AppContent.render. simpl. by eexists.
Qed.

Lemma logout_keeps_pending_fetchUser_witness :
  (AuthProvider.reachable freshLogin ∧ AuthProvider.pending freshLogin = 1 ∧
   AuthProvider.user freshLogin = Some someUser) ∧
  ∃ s1 s2,
    AuthProvider.step AuthProvider.OnLogout freshLogin = Some s1 ∧
    AuthProvider.step (AuthProvider.OnFetchUserSettled (Resolved someUser)) s1
      = Some s2 ∧
    AuthProvider.user s2 = Some someUser ∧
    AuthProvider.Authorization s2 = None.
Proof.
  assert (Hr : AuthProvider.reachable freshLogin).
  { apply (AuthProvider.reach_step
             (AuthProvider.OnLogin (Resolved (JStr (lit "abc"), someUser)))
             (AuthProvider.mount None));
      [apply (AuthProvider.reach_mount None) | reflexivity]. }
  assert (Hp : AuthProvider.pending freshLogin = 1) by reflexivity.
  assert (Hu : AuthProvider.user freshLogin = Some someUser) by reflexivity.
  split; [done|].
  destruct (logout_keeps_pending_fetchUser freshLogin someUser 0 Hp)
    as (s1 & s2 & H1 & _ & H2 & H3 & _ & _ & H4 & _).
  by exists s1, s2.
Defined.

(** ** Deleting a task from My Tasks *)

Lemma taskCards_settled `{Env} (s : TaskCards.state) (i : nat)
    (c : TaskCards.call) (r : settled unit) :
  TaskCards.calls s !! i = Some c →
  TaskCards.step (TaskCards.DeleteSettled i r) s =
    Some (match r with
          | Resolved _ =>
              ({| TaskCards.page :=
                    MyTasks.handleDelete (TaskCards.rendered c)
                      (t_id (TaskCards.card c)) (TaskCards.page s);
                  TaskCards.calls := delete i (TaskCards.calls s) |},
               [ToastSuccess (lit "Task deleted successfully")])
          | Rejected _ =>
              ({| TaskCards.page := TaskCards.page s;
                  TaskCards.calls := delete i (TaskCards.calls s) |},
               [ToastError (lit "Failed to delete task")])
          end).
Proof.
  intros Hc. unfold TaskCards.step. simpl. rewrite Hc. simpl.
  by destruct r.
Qed.

Lemma taskCards_pressed `{Env} (s : TaskCards.state) (task : Task) :
  TaskCards.offered (TaskCards.PressDelete task) s = true →
  TaskCards.step (TaskCards.PressDelete task) s =
    Some ({| TaskCards.page := TaskCards.page s;
             TaskCards.calls :=
               TaskCards.calls s ++
               [{| TaskCards.card := task;
                   TaskCards.rendered :=
                     MyTasks.tasks (TaskCards.page s) |}] |},
          [Http (taskDeletion task)]).
Proof. intros Hoff. unfold TaskCards.step. by rewrite Hoff. Qed.

(** X7: the delete button of a task card sends DELETE /tasks/{id} and
    nothing else.  When the call succeeds the list of My Tasks becomes
    the list of the render in which the button was pressed without the
    tasks with that id: the others of that list stay, in their order,
    and with distinct ids that list loses exactly the task of the card.
    A delete that nothing comes in between so takes exactly that task
    out of the list on screen.  Of two deletes started from the same
    list and both successful only the one answered last shows: the task
    of the other is on screen again.  When the call fails the list
    stays as it is. *)
Theorem task_delete_updates_list `{Env} :
  (∀ (s : TaskCards.state) (task : Task),
      TaskCards.offered (TaskCards.PressDelete task) s = true →
      TaskCards.step (TaskCards.PressDelete task) s =
        Some ({| TaskCards.page := TaskCards.page s;
                 TaskCards.calls :=
                   TaskCards.calls s ++
                   [{| TaskCards.card := task;
                       TaskCards.rendered :=
                         MyTasks.tasks (TaskCards.page s) |}] |},
              [Http (taskDeletion task)])) ∧
  (∀ (s : TaskCards.state) (i : nat) (c : TaskCards.call),
      TaskCards.calls s !! i = Some c →
      ∃ s',
        TaskCards.step (TaskCards.DeleteSettled i (Resolved ())) s =
          Some (s', [ToastSuccess (lit "Task deleted successfully")]) ∧
        TaskCards.calls s' = delete i (TaskCards.calls s) ∧
        (∀ q, q ∈ MyTasks.tasks (TaskCards.page s') ↔
              q ∈ TaskCards.rendered c ∧ t_id q ≠ t_id (TaskCards.card c)) ∧
        sublist (MyTasks.tasks (TaskCards.page s')) (TaskCards.rendered c) ∧
        (∀ l1 l2,
            TaskCards.rendered c = l1 ++ TaskCards.card c :: l2 →
            Forall (λ q, t_id q ≠ t_id (TaskCards.card c)) (l1 ++ l2) →
            MyTasks.tasks (TaskCards.page s') = l1 ++ l2)) ∧
  (∀ (s : TaskCards.state) (task : Task) l1 l2,
      TaskCards.offered (TaskCards.PressDelete task) s = true →
      MyTasks.tasks (TaskCards.page s) = l1 ++ task :: l2 →
      Forall (λ q, t_id q ≠ t_id task) (l1 ++ l2) →
      ∃ s',
        TaskCards.run
          [TaskCards.PressDelete task;
           TaskCards.DeleteSettled (length (TaskCards.calls s))
             (Resolved ())] s =
          Some (s', [Http (taskDeletion task);
                     ToastSuccess (lit "Task deleted successfully")]) ∧
        MyTasks.tasks (TaskCards.page s') = l1 ++ l2 ∧
        TaskCards.calls s' = TaskCards.calls s) ∧
  (∀ (s : TaskCards.state) (a b : Task),
      TaskCards.offered (TaskCards.PressDelete a) s = true →
      TaskCards.offered (TaskCards.PressDelete b) s = true →
      t_id a ≠ t_id b →
      ∃ s',
        TaskCards.run
          [TaskCards.PressDelete a; TaskCards.PressDelete b;
           TaskCards.DeleteSettled (length (TaskCards.calls s))
             (Resolved ());
           TaskCards.DeleteSettled (length (TaskCards.calls s))
             (Resolved ())] s =
          Some (s', [Http (taskDeletion a); Http (taskDeletion b);
                     ToastSuccess (lit "Task deleted successfully");
                     ToastSuccess (lit "Task deleted successfully")]) ∧
        MyTasks.tasks (TaskCards.page s') =
          filter (λ q, t_id q ≠ t_id b) (MyTasks.tasks (TaskCards.page s)) ∧
        a ∈ MyTasks.tasks (TaskCards.page s')) ∧
  (∀ (s : TaskCards.state) (i : nat) (c : TaskCards.call) detail,
      TaskCards.calls s !! i = Some c →
      TaskCards.step (TaskCards.DeleteSettled i (Rejected detail)) s =
        Some ({| TaskCards.page := TaskCards.page s;
                 TaskCards.calls := delete i (TaskCards.calls s) |},
              [ToastError (lit "Failed to delete task")])).
Proof.
  split_and!.
  - intros s task Hoff. by apply taskCards_pressed.
  - intros s i c Hc. eexists.
    split; [by apply (taskCards_settled s i c (Resolved ()))|].
    cbn [TaskCards.page TaskCards.calls MyTasks.handleDelete MyTasks.tasks].
    split_and!; [done| | |].
    + intros q. rewrite list_elem_of_filter. tauto.
    + apply sublist_filter.
    + intros l1 l2 -> Hothers. apply filter_drops_one; [|done].
      intros Hne. by apply Hne.
  - intros s task l1 l2 Hoff Hl Hothers.
    destruct (lookup_last_call (TaskCards.calls s)
                {| TaskCards.card := task;
                   TaskCards.rendered := MyTasks.tasks (TaskCards.page s) |})
      as [Hlook Hdel].
    eexists. split_and!.
    + cbn [TaskCards.run].
      rewrite (taskCards_pressed s task Hoff). cbn [mbind option_bind].
      rewrite (taskCards_settled
                 {| TaskCards.page := TaskCards.page s;
                    TaskCards.calls :=
                      TaskCards.calls s ++
                      [{| TaskCards.card := task;
                          TaskCards.rendered :=
                            MyTasks.tasks (TaskCards.page s) |}] |}
                 _ _ (Resolved ()) Hlook).
      reflexivity.
    + cbn [TaskCards.page TaskCards.card TaskCards.rendered
           MyTasks.handleDelete MyTasks.tasks].
      rewrite Hl. apply filter_drops_one; [|done]. intros Hne. by apply Hne.
    + cbn [TaskCards.calls]. exact Hdel.
  - intros s a b Ha Hb Hab.
    set (ca := {| TaskCards.card := a;
                  TaskCards.rendered := MyTasks.tasks (TaskCards.page s) |}).
    set (cb := {| TaskCards.card := b;
                  TaskCards.rendered := MyTasks.tasks (TaskCards.page s) |}).
    set (s1 := {| TaskCards.page := TaskCards.page s;
                  TaskCards.calls := TaskCards.calls s ++ [ca] |}).
    set (s2 := {| TaskCards.page := TaskCards.page s;
                  TaskCards.calls := (TaskCards.calls s ++ [ca]) ++ [cb] |}).
    assert (H1 : TaskCards.step (TaskCards.PressDelete a) s =
                 Some (s1, [Http (taskDeletion a)]))
      by by apply taskCards_pressed.
    assert (H2 : TaskCards.step (TaskCards.PressDelete b) s1 =
                 Some (s2, [Http (taskDeletion b)]))
      by by apply taskCards_pressed.
    assert (Hla : TaskCards.calls s2 !! length (TaskCards.calls s) = Some ca).
    { unfold s2. cbn [TaskCards.calls]. rewrite <- app_assoc. cbn [app].
      by apply list_lookup_middle. }
    assert (Hda : delete (length (TaskCards.calls s)) (TaskCards.calls s2) =
                  TaskCards.calls s ++ [cb]).
    { unfold s2. cbn [TaskCards.calls]. rewrite <- app_assoc. cbn [app].
      by rewrite delete_middle. }
    pose proof (taskCards_settled s2 _ ca (Resolved ()) Hla) as H3.
    rewrite Hda in H3.
    destruct (lookup_last_call (TaskCards.calls s) cb) as [Hlb Hdb].
    set (s3 := {| TaskCards.page :=
                    MyTasks.handleDelete (TaskCards.rendered ca)
                      (t_id (TaskCards.card ca)) (TaskCards.page s2);
                  TaskCards.calls := TaskCards.calls s ++ [cb] |}) in *.
    pose proof (taskCards_settled s3 _ cb (Resolved ()) Hlb) as H4.
    eexists. split_and!.
    + cbn [TaskCards.run]. rewrite H1. cbn [mbind option_bind].
      rewrite H2. cbn [mbind option_bind]. rewrite H3.
      cbn [mbind option_bind]. rewrite H4. reflexivity.
    + reflexivity.
    + cbn [TaskCards.page MyTasks.handleDelete MyTasks.tasks cb
           TaskCards.rendered TaskCards.card].
      apply list_elem_of_filter. split; [done|].
      apply andb_prop in Ha as [_ Hin].
      by apply bool_decide_eq_true in Hin.
  - intros s i c detail Hc.
    by apply (taskCards_settled s i c (Rejected detail)).
Qed.

Lemma task_delete_updates_list_witness :
  (TaskCards.offered (TaskCards.PressDelete t2) myTasksPage = true ∧
   TaskCards.offered (TaskCards.PressDelete t1) myTasksPage = true ∧
   t_id t1 ≠ t_id t2 ∧
   MyTasks.tasks (TaskCards.page myTasksPage) = [t1] ++ t2 :: [t3] ∧
   Forall (λ q, t_id q ≠ t_id t2) ([t1] ++ [t3])) ∧
  (∃ s',
      TaskCards.run (E := localEnv)
        [TaskCards.PressDelete t2;
         TaskCards.DeleteSettled 0 (Resolved ())] myTasksPage =
        Some (s', [Http (taskDeletion (H := localEnv) t2);
                   ToastSuccess (lit "Task deleted successfully")]) ∧
      MyTasks.tasks (TaskCards.page s') = [t1; t3]) ∧
  (∃ s',
      TaskCards.run (E := localEnv)
        [TaskCards.PressDelete t1; TaskCards.PressDelete t2;
         TaskCards.DeleteSettled 0 (Resolved ());
         TaskCards.DeleteSettled 0 (Resolved ())] myTasksPage =
        Some (s', [Http (taskDeletion (H := localEnv) t1);
                   Http (taskDeletion (H := localEnv) t2);
                   ToastSuccess (lit "Task deleted successfully");
                   ToastSuccess (lit "Task deleted successfully")]) ∧
      t1 ∈ MyTasks.tasks (TaskCards.page s')).
Proof.
  assert (H2 : TaskCards.offered (TaskCards.PressDelete t2) myTasksPage = true)
    by reflexivity.
  assert (H1 : TaskCards.offered (TaskCards.PressDelete t1) myTasksPage = true)
    by reflexivity.
  assert (Hne : t_id t1 ≠ t_id t2) by (by vm_compute).
  assert (Hl : MyTasks.tasks (TaskCards.page myTasksPage) = [t1] ++ t2 :: [t3])
    by reflexivity.
  assert (Ho : Forall (λ q, t_id q ≠ t_id t2) ([t1] ++ [t3])).
  { repeat constructor; by vm_compute. }
  split; [done|].
  destruct (task_delete_updates_list (H := localEnv))
    as (_ & _ & Hrun & Htwo & _).
  split.
  - destruct (Hrun myTasksPage t2 [t1] [t3] H2 Hl Ho) as (s' & Hr & Hs & _).
    by exists s'.
  - destruct (Htwo myTasksPage t1 t2 H1 H2 Hne) as (s' & Hr & _ & Hin).
    by exists s'.
Defined.

(** ** The project page, continued *)

Lemma formKeys_elem :
  "title" ∈ formKeys ∧ "description" ∈ formKeys ∧ "assignee_id" ∈ formKeys ∧
  "due_date" ∈ formKeys ∧ "status" ∈ formKeys.
Proof. unfold formKeys. split_and!; set_solver. Qed.

Lemma dom_insert_known (nt : gmap string jsval) (k : string) (v : jsval) :
  k ∈ dom nt → dom (<[k := v]> nt) = dom nt.
Proof.
  intros Hk. rewrite dom_insert_L. apply subseteq_union_1_L.
  by apply singleton_subseteq_l.
Qed.

Lemma dom_emptyTask : dom ProjectDetail.emptyTask = formKeys.
Proof.
  unfold ProjectDetail.emptyTask, formKeys.
  rewrite !dom_insert_L, dom_empty_L. set_solver.
Qed.

Lemma form_ok_emptyTask : form_ok ProjectDetail.emptyTask.
Proof.
  unfold form_ok. split_and!.
  - apply dom_emptyTask.
  - unfold ProjectDetail.emptyTask. intros k v Hk.
    repeat (apply lookup_insert_Some in Hk as [[_ <-]|[_ Hk]]; [by eexists|]).
    by rewrite lookup_empty in Hk.
  - exists (lit "To-Do"). split; [unfold statusItems; member|].
    reflexivity.
Qed.

Lemma form_ok_insert (nt : gmap string jsval) (k : string) (v : jsstring) :
  k ∈ formKeys → k ≠ "status" → form_ok nt →
  form_ok (<[k := JStr v]> nt).
Proof.
  intros Hk Hns (Hdom & Hval & (st & Hst & Hlook)). split_and!.
  - rewrite dom_insert_known; [done|]. by rewrite Hdom.
  - intros k' v' Hk'.
    apply lookup_insert_Some in Hk' as [[_ <-]|[_ Hk']]; [by eexists|].
    by eapply Hval.
  - exists st. split; [done|]. by rewrite lookup_insert_ne.
Qed.

Lemma form_ok_status (nt : gmap string jsval) (v : jsstring) :
  v ∈ statusItems → form_ok nt → form_ok (<["status" := JStr v]> nt).
Proof.
  intros Hv (Hdom & Hval & _). split_and!.
  - rewrite dom_insert_known; [done|]. rewrite Hdom. apply formKeys_elem.
  - intros k' v' Hk'.
    apply lookup_insert_Some in Hk' as [[_ <-]|[_ Hk']]; [by eexists|].
    by eapply Hval.
  - exists v. split; [done|]. by rewrite lookup_insert_eq.
Qed.

Lemma step_form_ok `{Env} (e : ProjectDetail.event)
    (s s' : ProjectDetail.state) out :
  ProjectDetail.step e s = Some (s', out) →
  form_ok (ProjectDetail.newTask s) → form_ok (ProjectDetail.newTask s').
Proof.
  unfold ProjectDetail.step.
  destruct (ProjectDetail.offered e s) eqn:Hoff; [|done].
  intros [= Hh] Hinv.
  destruct e; simpl in Hh.
  - case_decide; by simplify_eq.
  - destruct r as [[[p ts] cs]|d]; simpl in Hh; by simplify_eq.
  - by simplify_eq.
  - by simplify_eq.
  - simplify_eq. simpl. apply form_ok_insert; [apply formKeys_elem|done..].
  - simplify_eq. simpl. apply form_ok_insert; [apply formKeys_elem|done..].
  - simplify_eq. simpl. apply form_ok_insert; [apply formKeys_elem|done..].
  - simplify_eq. simpl. apply form_ok_insert; [apply formKeys_elem|done..].
  - simplify_eq. simpl. apply form_ok_status; [|done].
    simpl in Hoff. apply andb_prop in Hoff as [_ Hv].
    by apply bool_decide_eq_true in Hv.
  - unfold ProjectDetail.handleCreateTask in Hh.
    destruct (ProjectDetail.createTask_body _); [|by simplify_eq].
    destruct r; simplify_eq; [apply form_ok_emptyTask | done].
  - destruct r; simpl in Hh; by simplify_eq.
  - by simplify_eq.
  - destruct r; simpl in Hh; by simplify_eq.
  - by simplify_eq.
  - by simplify_eq.
  - unfold ProjectDetail.handleAddComment in Hh.
    destruct (negb _); [by simplify_eq|].
    destruct r; simpl in Hh; by simplify_eq.
Qed.

Lemma run_form_ok `{Env} (evs : list ProjectDetail.event) :
  ∀ s s' out,
    ProjectDetail.run evs s = Some (s', out) →
    form_ok (ProjectDetail.newTask s) → form_ok (ProjectDetail.newTask s').
Proof.
  induction evs as [|e evs IH]; intros s s' out; simpl.
  - by intros [= <- <-].
  - destruct (ProjectDetail.step e s) as [[s1 out1]|] eqn:Hstep; [|done].
    simpl. destruct (ProjectDetail.run evs s1) as [[s2 out2]|] eqn:Hrun;
      [|done].
    simpl. intros [= <- <-] Hinv.
    apply (IH s1 s2 out2 Hrun). by eapply step_form_ok.
Qed.

Lemma form_ok_lookup (nt : gmap string jsval) (k : string) :
  form_ok nt → k ∈ formKeys → ∃ s, nt !! k = Some (JStr s).
Proof.
  intros (Hdom & Hval & _) Hk. rewrite <- Hdom in Hk.
  apply elem_of_dom in Hk as [v Hv].
  destruct (Hval k v Hv) as [s ->]. by exists s.
Qed.

(** X8: every creation request that the form of the project page can
    send is well formed.  In any state reached from the first render in
    which the form can be submitted, the form has its five keys with
    strings as values; if the due date typed is empty or a date, the
    request is the POST to the project's tasks, followed by GETs only,
    and its body has exactly the five keys, a non-empty title, a status
    among To-Do, In Progress and Done, the form's other values as typed,
    and as due date [null] or the ISO text of the date typed; if the due
    date typed is no date, no request is sent, the error toast is shown
    and the form stays as it is. *)
Theorem creation_request_well_formed `{Env} (pid : jsstring)
    (evs : list ProjectDetail.event) (s : ProjectDetail.state)
    (out : list effect) (r : settled unit) :
  ProjectDetail.run evs (ProjectDetail.initial pid) = Some (s, out) →
  ProjectDetail.offered (ProjectDetail.SubmitCreateTask r) s = true →
  form_ok (ProjectDetail.newTask s) ∧
  match ProjectDetail.createTask_body (ProjectDetail.newTask s) with
  | Some body =>
      (∃ s' out',
          ProjectDetail.handleCreateTask r s =
            (s', Http (taskCreation s body) :: out') ∧
          ∀ q, Http q ∈ out' → r_method q = GET) ∧
      dom body = formKeys ∧
      (∃ c t, body !! "title" = Some (JStr (c :: t))) ∧
      (∃ v, v ∈ statusItems ∧ body !! "status" = Some (JStr v)) ∧
      (∀ k, k ≠ "due_date" → body !! k = ProjectDetail.newTask s !! k) ∧
      ((ProjectDetail.newTask s !! "due_date" = Some (JStr []) ∧
        body !! "due_date" = Some JNull) ∨
       (∃ typed iso, typed ≠ [] ∧
          ProjectDetail.newTask s !! "due_date" = Some (JStr typed) ∧
          Date_toISOString typed = Some iso ∧
          body !! "due_date" = Some (JStr iso)))
  | None =>
      (∃ typed, typed ≠ [] ∧
         ProjectDetail.newTask s !! "due_date" = Some (JStr typed) ∧
         Date_toISOString typed = None) ∧
      ProjectDetail.handleCreateTask r s =
        (s, [ToastError (lit "Failed to create task")])
  end.
Proof.
  intros Hrun Hoff.
  assert (Hform : form_ok (ProjectDetail.newTask s)).
  { apply (run_form_ok evs _ _ _ Hrun). apply form_ok_emptyTask. }
  split; [exact Hform|].
  destruct formKeys_elem as (Hkt & _ & _ & Hkd & _).
  destruct (form_ok_lookup _ "due_date" Hform Hkd) as [typed Hdue].
  destruct (form_ok_lookup _ "title" Hform Hkt) as [ttl Httl].
  assert (Hne : ∃ c t, ttl = c :: t).
  { simpl in Hoff. apply andb_prop in Hoff as [_ Ht].
    unfold get in Ht. rewrite Httl in Ht. simpl in Ht.
    destruct ttl; [done|by eauto]. }
  destruct Hne as (c & t & ->).
  destruct Hform as (Hdom & _ & Hstatus).
  unfold ProjectDetail.handleCreateTask, ProjectDetail.createTask_body,
    ProjectDetail.due_date_of, get.
  rewrite Hdue. simpl.
  assert (Hbody : ∀ due : jsval,
    dom (<["due_date" := due]> (ProjectDetail.newTask s)) = formKeys ∧
    (∃ c0 t0, <["due_date" := due]> (ProjectDetail.newTask s) !! "title"
              = Some (JStr (c0 :: t0))) ∧
    (∃ v, v ∈ statusItems ∧
          <["due_date" := due]> (ProjectDetail.newTask s) !! "status"
          = Some (JStr v)) ∧
    (∀ k, k ≠ "due_date" →
          <["due_date" := due]> (ProjectDetail.newTask s) !! k
          = ProjectDetail.newTask s !! k) ∧
    <["due_date" := due]> (ProjectDetail.newTask s) !! "due_date" = Some due).
  { intros due. split_and!.
    - rewrite dom_insert_known; [done|]. by rewrite Hdom.
    - exists c, t. by rewrite lookup_insert_ne.
    - destruct Hstatus as (v & Hv & Hlook). exists v. split; [done|].
      by rewrite lookup_insert_ne.
    - intros k Hk. by rewrite lookup_insert_ne.
    - apply lookup_insert_eq. }
  assert (Hgets : ∀ q, Http q ∈
            ToastSuccess (lit "Task created successfully")
            :: ProjectDetail.fetchProjectData_requests s →
            r_method q = GET).
  { intros q Hq. apply elem_of_cons in Hq as [Hq|Hq]; [done|].
    by eapply fetchProjectData_requests_GET. }
  assert (Hnone : ∀ q, Http q ∈ [ToastError (lit "Failed to create task")] →
            r_method q = GET).
  { intros q Hq. by apply list_elem_of_singleton in Hq. }
  destruct typed as [|c' d'].
  - simpl. destruct (Hbody JNull) as (H1 & H2 & H3 & H4 & H5).
    split_and!; try done; [|by left].
    destruct r; eexists; eexists; (split; [reflexivity|]); done.
  - destruct (Date_toISOString (c' :: d')) as [iso|] eqn:Hiso; simpl.
    + destruct (Hbody (JStr iso)) as (H1 & H2 & H3 & H4 & H5).
      split_and!; try done;
        [|right; exists (c' :: d'), iso; by split_and!].
      destruct r; eexists; eexists; (split; [reflexivity|]); done.
    + split; [|done]. exists (c' :: d'). by split_and!.
Qed.

Lemma creation_request_well_formed_witness :
  ∃ s out,
    (ProjectDetail.run (E := strictEnv) typeTitleAndDate
       (ProjectDetail.initial (lit "p1")) = Some (s, out) ∧
     ProjectDetail.offered
       (ProjectDetail.SubmitCreateTask (Resolved ())) s = true) ∧
    form_ok (ProjectDetail.newTask s) ∧
    ProjectDetail.createTask_body (E := strictEnv) (ProjectDetail.newTask s)
      = None ∧
    ProjectDetail.handleCreateTask (E := strictEnv) (Resolved ()) s =
      (s, [ToastError (lit "Failed to create task")]).
Proof.
  assert (Hrun : ∃ s out,
    ProjectDetail.run (E := strictEnv) typeTitleAndDate
      (ProjectDetail.initial (lit "p1")) = Some (s, out) ∧
    ProjectDetail.offered
      (ProjectDetail.SubmitCreateTask (Resolved ())) s = true ∧
    ProjectDetail.createTask_body (E := strictEnv) (ProjectDetail.newTask s)
      = None).
  { do 2 eexists. split; [vm_compute; reflexivity|]. split; by vm_compute. }
  destruct Hrun as (s & out & Hrun & Hoff & Hnone).
  exists s, out. split; [done|].
  pose proof (creation_request_well_formed (H := strictEnv) _ _ _ _
                (Resolved ()) Hrun Hoff) as [Hform Hreq].
  rewrite Hnone in Hreq. destruct Hreq as [_ Heq]. done.
Defined.

Lemma step_requests `{Env} (e : ProjectDetail.event)
    (s s' : ProjectDetail.state) out :
  ProjectDetail.step e s = Some (s', out) →
  ∀ q, Http q ∈ out → request_from s q.
Proof.
  unfold ProjectDetail.step.
  destruct (ProjectDetail.offered e s) eqn:Hoff; [|done].
  intros [= Hh] q Hq. unfold request_from.
  destruct e; simpl in Hh.
  - case_decide; simplify_eq; [by apply elem_of_nil in Hq|].
    left. by eapply fetchProjectData_requests_GET.
  - destruct r as [[[p ts] cs]|d]; simpl in Hh; simplify_eq;
      [by apply elem_of_nil in Hq|].
    by apply list_elem_of_singleton in Hq.
  - simplify_eq. by apply elem_of_nil in Hq.
  - simplify_eq. by apply elem_of_nil in Hq.
  - simplify_eq. by apply elem_of_nil in Hq.
  - simplify_eq. by apply elem_of_nil in Hq.
  - simplify_eq. by apply elem_of_nil in Hq.
  - simplify_eq. by apply elem_of_nil in Hq.
  - simplify_eq. by apply elem_of_nil in Hq.
  - unfold ProjectDetail.handleCreateTask in Hh.
    destruct (ProjectDetail.createTask_body _) as [body|] eqn:Hb.
    + destruct r; simplify_eq.
      * apply elem_of_cons in Hq as [[= ->]|Hq];
          [right; left; by exists body|].
        apply elem_of_cons in Hq as [?|Hq]; [done|].
        left. by eapply fetchProjectData_requests_GET.
      * apply elem_of_cons in Hq as [[= ->]|Hq];
          [right; left; by exists body|].
        by apply list_elem_of_singleton in Hq.
    + simplify_eq. by apply list_elem_of_singleton in Hq.
  - simpl in Hoff. apply andb_prop in Hoff as [Hoff Hv].
    apply andb_prop in Hoff as [_ Hb].
    apply bool_decide_eq_true in Hv.
    assert (Hthis : q = statusUpdate taskId value →
              ∃ taskId0 v, ProjectDetail.onBoard s taskId0 = true ∧
                           v ∈ statusItems ∧ q = statusUpdate taskId0 v)
      by (intros ->; by exists taskId, value).
    destruct r; simpl in Hh; simplify_eq.
    + apply elem_of_cons in Hq as [[= ->]|Hq]; [do 4 right; by apply Hthis|].
      apply elem_of_cons in Hq as [?|Hq]; [done|].
      left. by eapply fetchProjectData_requests_GET.
    + apply elem_of_cons in Hq as [[= ->]|Hq]; [do 4 right; by apply Hthis|].
      by apply list_elem_of_singleton in Hq.
  - simplify_eq. by apply elem_of_nil in Hq.
  - simpl in Hoff. apply andb_prop in Hoff as [_ He].
    assert (Hne : ProjectDetail.newMemberEmail s ≠ [])
      by (by destruct (ProjectDetail.newMemberEmail s)).
    destruct r; simpl in Hh; simplify_eq.
    + apply elem_of_cons in Hq as [[= ->]|Hq]; [right; right; by left|].
      apply elem_of_cons in Hq as [?|Hq]; [done|].
      left. by eapply fetchProjectData_requests_GET.
    + apply elem_of_cons in Hq as [[= ->]|Hq]; [right; right; by left|].
      by apply list_elem_of_singleton in Hq.
  - simplify_eq. by apply elem_of_nil in Hq.
  - simplify_eq. by apply elem_of_nil in Hq.
  - unfold ProjectDetail.handleAddComment in Hh.
    rewrite truthy_trim, negb_involutive in Hh.
    destruct (blank (ProjectDetail.newComment s)) eqn:Hb;
      [simplify_eq; by apply elem_of_nil in Hq|].
    destruct r; simpl in Hh; simplify_eq.
    + apply elem_of_cons in Hq as [[= ->]|Hq];
        [right; right; right; by left|].
      left. by eapply fetchProjectData_requests_GET.
    + apply elem_of_cons in Hq as [[= ->]|Hq];
        [right; right; right; by left|].
      by apply list_elem_of_singleton in Hq.
Qed.

Lemma run_requests `{Env} (evs : list ProjectDetail.event) :
  ∀ s s' out,
    ProjectDetail.run evs s = Some (s', out) →
    ∀ q, Http q ∈ out →
         ∃ s0, s0 ∈ ProjectDetail.visited evs s ∧ request_from s0 q.
Proof.
  induction evs as [|e evs IH]; intros s s' out; simpl.
  - intros [= <- <-] q Hq. by apply elem_of_nil in Hq.
  - destruct (ProjectDetail.step e s) as [[s1 out1]|] eqn:Hstep; [|done].
    simpl. destruct (ProjectDetail.run evs s1) as [[s2 out2]|] eqn:Hrun;
      [|done].
    simpl. intros [= <- <-] q Hq. apply elem_of_app in Hq as [Hq|Hq].
    + exists s. split; [apply list_elem_of_here|].
      by eapply step_requests.
    + destruct (IH s1 s2 out2 Hrun q Hq) as (s0 & Hs0 & Hreq).
      exists s0. split; [by apply list_elem_of_further|done].
Qed.

(** X9: what the project page sends.  Every request of any run of the
    page is a GET, the creation of a task from the form, the invitation
    of a non-empty e-mail address, a comment that is not blank, or the
    status update of a task that was on the board with one of the three
    statuses, each as it stood in a state the run passed through.  The
    page never sends a DELETE, and every PUT it sends is such a status
    update. *)
Theorem project_page_requests `{Env} (pid : jsstring)
    (evs : list ProjectDetail.event) (s : ProjectDetail.state)
    (out : list effect) (q : request) :
  ProjectDetail.run evs (ProjectDetail.initial pid) = Some (s, out) →
  Http q ∈ out →
  (∃ s0, s0 ∈ ProjectDetail.visited evs (ProjectDetail.initial pid) ∧
         request_from s0 q) ∧
  r_method q ≠ DELETE ∧
  (r_method q = PUT →
   ∃ s0 taskId v,
     s0 ∈ ProjectDetail.visited evs (ProjectDetail.initial pid) ∧
     ProjectDetail.onBoard s0 taskId = true ∧ v ∈ statusItems ∧
     q = statusUpdate taskId v).
Proof.
  intros Hrun Hq.
  destruct (run_requests evs _ _ _ Hrun q Hq) as (s0 & Hs0 & Hreq).
  split; [by exists s0|].
  destruct Hreq as [Hg|[(body & _ & ->)|[[-> _]|[[-> _]|(taskId & v & Hb & Hv & ->)]]]].
  - rewrite Hg. split; [done|]. intros [=].
  - split; [done|]. intros [=].
  - split; [done|]. intros [=].
  - split; [done|]. intros [=].
  - split; [done|]. intros _. by exists s0, taskId, v.
Qed.

Lemma project_page_requests_witness :
  ∃ s out,
    (ProjectDetail.run (E := localEnv) moveAndComment
       (ProjectDetail.initial (lit "p1")) = Some (s, out) ∧
     Http (statusUpdate (H := localEnv) (lit "t2") (lit "In Progress")) ∈ out) ∧
    r_method (statusUpdate (H := localEnv) (lit "t2") (lit "In Progress"))
      ≠ DELETE.
Proof.
  assert (Hrun : ∃ s out,
    ProjectDetail.run (E := localEnv) moveAndComment
      (ProjectDetail.initial (lit "p1")) = Some (s, out) ∧
    Http (statusUpdate (H := localEnv) (lit "t2") (lit "In Progress")) ∈ out).
  { do 2 eexists. split; [vm_compute; reflexivity|].
    apply list_elem_of_here. }
  destruct Hrun as (s & out & Hrun & Hin).
  exists s, out. split; [done|].
  exact (proj1 (proj2 (project_page_requests (H := localEnv) _ _ _ _ _
                         Hrun Hin))).
Defined.

Lemma handleAddComment_blank `{Env} (s : ProjectDetail.state) :
  blank (ProjectDetail.newComment s) = true →
  ∀ r, ProjectDetail.handleAddComment r s = (s, []).
Proof.
  intros Hb r. pose proof (handleAddComment_cases r s) as Hc.
  by rewrite Hb in Hc.
Qed.

(** X10: the Send button and the handler of the discussion form agree:
    the button is disabled exactly when [handleAddComment] would send
    nothing.  After a comment was sent successfully the input is empty,
    the button is disabled and a second submission sends nothing; after a
    failed sending the comment typed is still in the input, and nothing
    but the input is touched by the handler. *)
Theorem comment_send_button (s : ProjectDetail.state) :
  (∀ `{Env} r, sendDisabled s = true ↔
               (ProjectDetail.handleAddComment r s).2 = []) ∧
  (sendDisabled s = true ↔ blank (ProjectDetail.newComment s) = true) ∧
  (∀ `{Env}, ∃ s',
      (ProjectDetail.handleAddComment (Resolved ()) s).1 = s' ∧
      sendDisabled s' = true ∧
      (sendDisabled s = false → ProjectDetail.newComment s' = []) ∧
      ProjectDetail.setNewComment (ProjectDetail.newComment s) s' = s ∧
      ∀ r, ProjectDetail.handleAddComment r s' = (s', [])) ∧
  (∀ `{Env} detail,
      (ProjectDetail.handleAddComment (Rejected detail) s).1 = s).
Proof.
  assert (Hdis : sendDisabled s = blank (ProjectDetail.newComment s)).
  { unfold sendDisabled. by rewrite truthy_trim, negb_involutive. }
  split_and!.
  - intros E r. rewrite Hdis.
    pose proof (handleAddComment_cases r s) as Hc.
    destruct (blank _); [by rewrite Hc|].
    destruct Hc as (s' & out & -> & _). done.
  - by rewrite Hdis.
  - intros E. eexists. split; [reflexivity|]. rewrite Hdis.
    destruct (blank (ProjectDetail.newComment s)) eqn:Hb.
    + pose proof (handleAddComment_blank s Hb) as Hnone.
      rewrite (Hnone (Resolved ())). simpl.
      split_and!; try done. by destruct s.
    + assert (Hsent : (ProjectDetail.handleAddComment (Resolved ()) s).1
                      = ProjectDetail.setNewComment [] s).
      { unfold ProjectDetail.handleAddComment. by rewrite truthy_trim, Hb. }
      rewrite Hsent. split_and!; try done. by destruct s.
  - intros E detail. unfold ProjectDetail.handleAddComment.
    by destruct (negb _).
Qed.

(** ** The dialogs of the dashboard *)













(** ** String.prototype.trim *)

Lemma trimStart_split (s : jsstring) :
  ∃ pre, s = pre ++ trimStart s ∧ blank pre = true ∧
         ∀ c, head (trimStart s) = Some c → is_white_space c = false.
Proof.
  induction s as [|c s (pre & Hs & Hpre & Hhead)]; simpl.
  - by exists [].
  - destruct (is_white_space c) eqn:Hc.
    + exists (c :: pre). split; [by rewrite Hs at 1|]. split; [|done].
      simpl. by rewrite Hc.
    + exists []. split; [done|]. split; [done|]. by intros ? [= <-].
Qed.

Lemma trimEnd_split (s : jsstring) :
  ∃ post, s = trimEnd s ++ post ∧ blank post = true ∧
          ∀ c, last (trimEnd s) = Some c → is_white_space c = false.
Proof.
  unfold trimEnd.
  destruct (trimStart_split (reverse s)) as (pre & Hs & Hpre & Hhead).
  exists (reverse pre). split_and!.
  - rewrite <- reverse_app, <- Hs. by rewrite reverse_involutive.
  - by rewrite blank_reverse.
  - intros c. rewrite last_reverse. apply Hhead.
Qed.

(** X13: [trim] cuts white space from both ends and nothing else: the
    text is a run of white space, the trimmed text, and a run of white
    space; the trimmed text neither begins nor ends with white space,
    and trimming it again changes nothing. *)
Theorem trim_characterised (s : jsstring) :
  (∃ pre post, s = pre ++ trim s ++ post ∧
               blank pre = true ∧ blank post = true) ∧
  (∀ c, head (trim s) = Some c → is_white_space c = false) ∧
  (∀ c, last (trim s) = Some c → is_white_space c = false) ∧
  trim (trim s) = trim s.
Proof.
  destruct (trimStart_split s) as (pre & Hs & Hpre & Hhead).
  destruct (trimEnd_split (trimStart s)) as (post & Ht & Hpost & Hlast).
  fold (trim s) in Ht, Hlast.
  assert (Hh : ∀ c, head (trim s) = Some c → is_white_space c = false).
  { intros c Hc. apply Hhead. rewrite Ht.
    destruct (trim s); [done|]. done. }
  split_and!.
  - exists pre, post. split; [|done]. by rewrite <- Ht.
  - exact Hh.
  - exact Hlast.
  - assert (Hfix : trimStart (trim s) = trim s).
    { destruct (trim s) as [|c t] eqn:Htr; [done|].
      simpl. by rewrite (Hh c eq_refl). }
    unfold trim at 1. rewrite Hfix. unfold trimEnd.
    destruct (reverse (trim s)) as [|c t] eqn:Hrev.
    + apply (f_equal reverse) in Hrev. rewrite reverse_involutive in Hrev.
      by rewrite Hrev.
    + assert (Hl : last (trim s) = Some c).
      { rewrite <- (reverse_involutive (trim s)), Hrev, last_reverse. done. }
      simpl. rewrite (Hlast c Hl). rewrite <- Hrev.
      apply reverse_involutive.
Qed.
